(** * download_aorc: subsetting, area weighting and QA of the AORC extract

    A shallow embedding of [scripts/download_aorc.py].  Floating point
    values are idealised as real numbers, a missing value (NaN) is [None],
    timestamps are whole seconds since the Unix epoch (UTC).  The parts of
    pandas, xarray and numpy the script calls are modelled next to the
    script's own functions, each with the library routine it stands for. *)

From Stdlib Require Import Reals Lra ZArith Floats.
From stdpp Require Import base decidable option list sorting strings gmap.

Local Open Scope R_scope.

(** ** Exceptions

    The exceptions that derive from Python's [Exception]: those the script
    raises itself, and any other failure of a library call. *)

Inductive exn :=
  | KeyError (msg : string)
  | ValueError (msg : string)
  | IndexError (msg : string)
  | OtherException (msg : string).

Global Instance exn_ret : MRet (sum exn) := λ A x, inr x.
Global Instance exn_bind : MBind (sum exn) := λ A B k r,
  match r with
  | inl e => inl e
  | inr x => k x
  end.

(** ** Comparisons on coordinates *)

Global Instance Rle_rel_dec : RelDecision Rle := Rle_dec.
Global Instance Rlt_rel_dec : RelDecision Rlt := Rlt_dec.
Global Instance Req_eq_dec : EqDecision R := Req_dec_T.

(** ** Label-based slicing of a pandas index

    [xarray.DataArray.sel] with a [slice] of labels asks the pandas index
    of the dimension for the positional range ([Index.slice_indexer], which
    calls [slice_locs] and [get_slice_bound] for either end), then takes
    that positional range. *)

Inductive side := Left | Right.

Definition flip_side (sd : side) : side :=
  match sd with Left => Right | Right => Left end.

(** A [slice(start, stop)] of labels. *)
Record slice (A : Type) := Slice { start : A; stop : A }.
Arguments Slice {A} _ _.
Arguments start {A} _.
Arguments stop {A} _.

Section index.
Context {A : Type} (le : relation A) `{!RelDecision le}.

(** [x < v] on a total order, written with [le] alone. *)
Definition before (sd : side) (v x : A) : bool :=
  match sd with
  | Left => bool_decide (¬ le v x)
  | Right => bool_decide (le x v)
  end.

Fixpoint is_monotonic_increasing (idx : list A) : bool :=
  match idx with
  | x :: (y :: _) as tl => bool_decide (le x y) && is_monotonic_increasing tl
  | _ => true
  end.

Fixpoint is_monotonic_decreasing (idx : list A) : bool :=
  match idx with
  | x :: (y :: _) as tl => bool_decide (le y x) && is_monotonic_decreasing tl
  | _ => true
  end.

(** [numpy.searchsorted] on an ascending array: the insertion point of
    [v], before ([Left]) or after ([Right]) the entries equal to it. *)
Fixpoint searchsorted (idx : list A) (v : A) (sd : side) : nat :=
  match idx with
  | [] => 0%nat
  | x :: tl => if before sd v x then S (searchsorted tl v sd) else 0%nat
  end.

(** Positions of the entries equal to [v], counted from [i]. *)
Fixpoint positions_from (i : nat) (idx : list A) (v : A) : list nat :=
  match idx with
  | [] => []
  | x :: tl =>
      if bool_decide (le x v ∧ le v x)
      then i :: positions_from (S i) tl v
      else positions_from (S i) tl v
  end.

(** [Index.get_slice_bound].  On a monotonic index the bound is the
    insertion point (for a decreasing index pandas searches the reversed
    index on the other side and counts from the end); this is also the
    position [get_loc] gives when the label is present.  On an index that
    is not monotonic the label has to be present in one contiguous run,
    otherwise pandas raises [KeyError]. *)
Definition get_slice_bound (idx : list A) (label : A) (sd : side) : exn + nat :=
  if is_monotonic_increasing idx then inr (searchsorted idx label sd)
  else if is_monotonic_decreasing idx then
    inr (length idx - searchsorted (reverse idx) label (flip_side sd))%nat
  else
    match positions_from 0 idx label with
    | [] => inl (KeyError "label not found")
    | p :: ps =>
        let q := List.last ps p in
        if bool_decide (S q - p = length (p :: ps))%nat
        then inr (match sd with Left => p | Right => S q end)
        else inl (KeyError "Cannot get slice bound for non-unique label")
    end.

(** [Index.slice_locs]: the positional range [(i, j)] of a label slice. *)
Definition slice_locs (idx : list A) (s : slice A) : exn + (nat * nat) :=
  match get_slice_bound idx (start s) Left with
  | inl e => inl e
  | inr i =>
      match get_slice_bound idx (stop s) Right with
      | inl e => inl e
      | inr j => inr (i, j)
      end
  end.

(** Python's [xs[i:j]]. *)
Definition positional {B : Type} (xs : list B) (ij : nat * nat) : list B :=
  drop (fst ij) (take (snd ij) xs).

(** The labels a slice selects from an index. *)
Definition sel_labels (idx : list A) (s : slice A) : exn + list A :=
  match slice_locs idx s with
  | inl e => inl e
  | inr ij => inr (positional idx ij)
  end.

End index.

(** ** The script's order-safe slice helper *)

Definition _get_slice (min_value max_value : R) (coordinate : list R)
  : exn + slice R :=
  match head coordinate, last coordinate with
  | Some c0, Some cl =>
      let ascending := bool_decide (c0 <= cl) in
      inr (if ascending then Slice min_value max_value
           else Slice max_value min_value)
  | _, _ => inl (IndexError "index 0 is out of bounds for axis 0 with size 0")
  end.

(** The helper's slice applied to the array it was built for, as [main]
    does through [sel] for latitude and longitude. *)
Definition select_coordinate (min_value max_value : R) (coordinate : list R)
  : exn + list R :=
  s ← _get_slice min_value max_value coordinate;
  sel_labels Rle coordinate s.

(** The bounds overlap the extent the array spans, from its smaller to its
    larger end. *)
Definition overlaps_coverage (min_value max_value : R) (coordinate : list R)
  : Prop :=
  ∃ c0 cl, head coordinate = Some c0 ∧ last coordinate = Some cl ∧
    Rmin c0 cl <= max_value ∧ min_value <= Rmax c0 cl.

(** ** Run constants *)

Definition OUTPUT_DIR : string := "outputs".
Definition SUBSET_NETCDF : string := "outputs/aorc_subset_apcp_2010_2020.nc".
Definition AREA_MEAN_CSV : string :=
  "outputs/aorc_area_mean_apcp_hourly_2010_2020.csv".

(** 2010-01-01T00:00:00 and 2020-12-31T23:00:00, in seconds since the epoch. *)
Definition TIME_START : Z := 1262304000.
Definition TIME_END : Z := 1609455600.
Definition LAT_MIN : R := 37.60.
Definition LAT_MAX : R := 37.85.
Definition LON_MIN : R := -89.35.
Definition LON_MAX : R := -89.05.

(** ** Labelled arrays

    The variable is laid out (time, latitude, longitude) as in the AORC
    store: [values] holds one grid per time step, a grid is a list of
    latitude rows, a row has one cell per longitude.  [coords] holds the
    spatial coordinate variables under their names. *)

Record DataArray := {
  coords : gmap string (list R);
  time : list Z;
  values : list (list (list (option R)));
}.

Abbreviation Dataset := (gmap string DataArray).

(** A pandas series: a row index of timestamps with one value each. *)
Abbreviation Series := (list (Z * option R)).

(** ** Effects: a trace of what the script does, and exceptions *)

Inductive logarg :=
  | AStr (s : string)
  | AInt (n : nat)
  | AFloat (v : option R)
  | ATimestamp (t : option Z)
  | AExn (e : exn).

Inductive cell :=
  | CText (s : string)
  | CTime (t : Z)
  | CValue (v : option R).

Inductive event :=
  | Mkdir (path : string)
  | LogInfo (fmt : string) (args : list logarg)
  | LogWarning (fmt : string) (args : list logarg)
  | OpenZarr (uri : string) (consolidated : bool)
  | ToNetCDF (path : string) (name : string) (da : DataArray)
  | ToCSV (path : string) (lines : list (list cell)).

Definition M (A : Type) : Type := list event * (exn + A).

Global Instance M_ret : MRet M := λ A x, ([], inr x).
Global Instance M_bind : MBind M := λ A B k m,
  match m with
  | (tr, inl e) => (tr, inl e)
  | (tr, inr x) => let '(tr', r) := k x in (tr ++ tr', r)
  end.

Definition raise {A : Type} (e : exn) : M A := ([], inl e).
Definition emit (ev : event) : M unit := ([ev], inr tt).
Definition lift {A : Type} (r : exn + A) : M A := ([], r).

(** [try: m except Exception as exc: h exc]. *)
Definition try_except {A : Type} (m : M A) (h : exn → M A) : M A :=
  match m with
  | (tr, inl e) => let '(tr', r) := h e in (tr ++ tr', r)
  | (tr, inr x) => (tr, inr x)
  end.

(** What the run depends on outside the script: the location of the store,
    what [xr.open_zarr] does for either metadata mode, and whether the
    installed pandas raises on [idxmax] of an all-NA series (pandas 3) or
    returns NaN (earlier releases). *)
Record Env := {
  AORC_ZARR_URI : string;
  store : bool → exn + Dataset;
  idxmax_all_na_raises : bool;
}.

Definition open_zarr (env : Env) (uri : string) (consolidated : bool) : M Dataset :=
  emit (OpenZarr uri consolidated);; lift (store env consolidated).

(** ** Source connector

    Building the anonymous file system and the mapper of the location
    reads nothing from the store; the first request is [open_zarr]'s. *)

Definition open_aorc_dataset (env : Env) (uri : string) : M Dataset :=
  emit (LogInfo "Opening AORC dataset from %s" [AStr uri]);;
  ds ← try_except (open_zarr env uri true)
         (λ exc,
            emit (LogWarning
                    "Consolidated open failed (%s); retrying without consolidation"
                    [AExn exc]);;
            open_zarr env uri false);
  if bool_decide (ds !! "apcp" = None)
  then raise (KeyError "Variable 'apcp' not found in dataset.")
  else mret ds.

(** What the two attempts yield together: the consolidated result, or on
    its failure the result of the attempt without consolidation. *)
Definition opened (env : Env) : exn + Dataset :=
  match store env true with
  | inr ds => inr ds
  | inl _ => store env false
  end.

(** ** Subsetter *)

(** [apcp.sel(time=slice(TIME_START, TIME_END))] on the time index.  A
    [DatetimeIndex] sliced by two strings goes through [slice_locs] only
    when it is monotonic increasing; otherwise pandas (2.0 and later)
    refuses the selection with [KeyError]: the bounds of the run, widened
    to the one-second resolution of the strings, are not entries of an
    index of whole seconds.  On an increasing index of whole seconds the
    widened bounds select what [TIME_START] and [TIME_END] select. *)
Definition time_slice_locs (idx : list Z) (s : slice Z) : exn + (nat * nat) :=
  if is_monotonic_increasing Z.le idx then slice_locs Z.le idx s
  else inl (KeyError "partial slicing on non-monotonic DatetimeIndex").

(** [da[name]] for a coordinate variable. *)
Definition coordinate (da : DataArray) (name : string) : exn + list R :=
  match coords da !! name with
  | Some c => inr c
  | None => inl (KeyError name)
  end.

(** Positional selection along the three dimensions ([isel]). *)
Definition isel (da : DataArray) (lat_name lon_name : string)
    (tij yij xij : nat * nat) : DataArray :=
  {| coords :=
       alter (λ c, positional c xij) lon_name
         (alter (λ c, positional c yij) lat_name (coords da));
     time := positional (time da) tij;
     values :=
       (λ grid, (λ row, positional row xij) <$> positional grid yij)
         <$> positional (values da) tij |}.

(** [apcp.sel(time=..., **{lat_name: ..., lon_name: ...})]. *)
Definition sel (da : DataArray) (time_slice : slice Z)
    (lat_name : string) (lat_slice : slice R)
    (lon_name : string) (lon_slice : slice R) : exn + DataArray :=
  tij ← time_slice_locs (time da) time_slice;
  lat ← coordinate da lat_name;
  yij ← slice_locs Rle lat lat_slice;
  lon ← coordinate da lon_name;
  xij ← slice_locs Rle lon lon_slice;
  mret (isel da lat_name lon_name tij yij xij).

(** ** Aggregator

    The reduction is embedded in exact arithmetic: cells and weights are
    real numbers, a missing cell (NaN) is [None], and rounding is left
    out.  What depends on rounding is stated on the binary64 reduction
    that follows. *)

Definition deg2rad (x : R) : R := x * (PI / 180).

Definition sum_list (xs : list R) : R := foldr Rplus 0 xs.

(** [xr.dot] of a grid with weights along latitude, summed over both
    spatial dimensions; [f] is what the reduction reads from a cell. *)
Definition dot (f : option R → R) (grid : list (list (option R)))
    (weights : list R) : R :=
  sum_list (zip_with (λ row w, sum_list ((λ v, f v * w) <$> row)) grid weights).

Definition fillna (v : option R) : R := default 0 v.
Definition notnull (v : option R) : R :=
  match v with
  | Some _ => 1
  | None => 0
  end.

(** [DataArrayWeighted.mean]: the weighted sum of the cells with missing
    values read as 0, over the sum of the weights of the cells that are not
    missing; a zero sum of weights is masked, which makes the mean NaN. *)
Definition weighted_mean (weights : list R) (grid : list (list (option R)))
  : option R :=
  let weighted_sum := dot fillna grid weights in
  let sum_of_weights := dot notnull grid weights in
  if bool_decide (sum_of_weights = 0) then None
  else Some (weighted_sum / sum_of_weights).

(** ** The reduction in binary64

    The cells and weights of the script are IEEE 754 binary64 numbers,
    which Rocq's primitive floats are, NaN included.  The same reduction
    is written here on them, to compare with the reduction on real
    numbers.  [np.cos] is the cosine of the platform and has no
    counterpart here, so the weights enter as the numbers it returns.
    numpy does not fix the order in which it adds the terms of a sum; a
    sum of at most two terms does not depend on it. *)

Definition pi64 : float := 0x1.921fb54442d18p+1%float.

(** [np.deg2rad]. *)
Definition deg2rad64 (x : float) : float := (x * (pi64 / 180))%float.

Definition sum64 (xs : list float) : float := foldr PrimFloat.add 0%float xs.

Definition dot64 (f : float → float) (grid : list (list float))
    (weights : list float) : float :=
  sum64 (zip_with (λ row w, sum64 ((λ v, f v * w)%float <$> row)) grid weights).

Definition fillna64 (v : float) : float :=
  if PrimFloat.is_nan v then 0%float else v.

Definition notnull64 (v : float) : float :=
  if PrimFloat.is_nan v then 0%float else 1%float.

Definition weighted_mean64 (weights : list float) (grid : list (list float))
  : float :=
  let weighted_sum := dot64 fillna64 grid weights in
  let sum_of_weights := dot64 notnull64 grid weights in
  if PrimFloat.eqb sum_of_weights 0 then PrimFloat.nan
  else (weighted_sum / sum_of_weights)%float.

(** ** QA *)

(** [pd.date_range(start, end, freq="h")]. *)
Definition date_range (start_ end_ : Z) : list Z :=
  (λ k, start_ + 3600 * k)%Z <$> seqZ 0 ((end_ - start_) `div` 3600 + 1).

(** [Index.difference]: the distinct entries of the first index that are
    not in the second (pandas also sorts them; the script takes the
    length). *)
Definition difference (this other : list Z) : list Z :=
  remove_dups (list_difference this other).

(** [numpy.nanmax] over the values of a series. *)
Fixpoint nanmax (s : Series) : option R :=
  match s with
  | [] => None
  | (_, v) :: tl =>
      match v, nanmax tl with
      | Some x, Some m => Some (Rmax x m)
      | Some x, None => Some x
      | None, m => m
      end
  end.

(** [numpy.nanargmax]: scan keeping the first entry that is not exceeded
    later; [best] is the running maximum and its label. *)
Fixpoint argmax_from (best : Z * R) (s : Series) : Z * R :=
  match s with
  | [] => best
  | (_, None) :: tl => argmax_from best tl
  | (t, Some x) :: tl =>
      if bool_decide (best.2 < x) then argmax_from (t, x) tl
      else argmax_from best tl
  end.

Fixpoint nanargmax (s : Series) : option Z :=
  match s with
  | [] => None
  | (_, None) :: tl => nanargmax tl
  | (t, Some x) :: tl => Some (argmax_from (t, x) tl).1
  end.

(** [Series.idxmax()]. *)
Definition idxmax (env : Env) (s : Series) : exn + option Z :=
  match s with
  | [] => inl (ValueError "attempt to get argmax of an empty sequence")
  | _ =>
      match nanargmax s with
      | Some t => inr (Some t)
      | None =>
          if idxmax_all_na_raises env
          then inl (ValueError "Encountered all NA values")
          else inr None
      end
  end.

(** Position [i] of the series holds label [t] and value [m], no value of
    the series exceeds [m], and every value before [i] is below it. *)
Definition first_maximum (s : Series) (i : nat) (t : Z) (m : R) : Prop :=
  s !! i = Some (t, Some m)
  ∧ (∀ j t' x, s !! j = Some (t', Some x) → x <= m)
  ∧ (∀ j t' x, (j < i)%nat → s !! j = Some (t', Some x) → x < m).

(** ** Sink *)

Record DataFrame := {
  index_name : string;
  column : string;
  rows : Series;
}.

(** [DataFrame.to_csv]: the header line, then one line per row. *)
Definition to_csv (df : DataFrame) : list (list cell) :=
  [CText (index_name df); CText (column df)]
    :: ((λ r, [CTime r.1; CValue r.2]) <$> rows df).

(** ** The pipeline, stage by stage *)

(** Lines 63-67: the names of the spatial coordinates. *)
Definition resolve_names (apcp : DataArray) : exn + (string * string) :=
  let lat_name :=
    if bool_decide (is_Some (coords apcp !! "latitude")) then "latitude" else "lat" in
  let lon_name :=
    if bool_decide (is_Some (coords apcp !! "longitude")) then "longitude" else "lon" in
  if bool_decide (coords apcp !! lat_name = None)
     || bool_decide (coords apcp !! lon_name = None)
  then inl (KeyError "Could not find latitude/longitude coordinates in dataset")
  else inr (lat_name, lon_name).

(** Lines 70-76: the subset in time and space. *)
Definition select_subset (apcp : DataArray) (lat_name lon_name : string)
  : exn + DataArray :=
  lat ← coordinate apcp lat_name;
  lat_slice ← _get_slice LAT_MIN LAT_MAX lat;
  lon ← coordinate apcp lon_name;
  lon_slice ← _get_slice LON_MIN LON_MAX lon;
  sel apcp (Slice TIME_START TIME_END) lat_name lat_slice lon_name lon_slice.

(** Lines 81-82: the weights along latitude. *)
Definition weights_of (lats : list R) : list R :=
  let lat_radians := deg2rad <$> lats in
  cos <$> lat_radians.

(** Line 83, materialised as a series (line 90). *)
Definition area_mean (subset : DataArray) (lat_name : string) : exn + Series :=
  lats ← coordinate subset lat_name;
  mret (zip (time subset) (weighted_mean (weights_of lats) <$> values subset)).

(** Lines 86-88. *)
Definition missing_hours (series : Series) : nat :=
  let expected_index := date_range TIME_START TIME_END in
  let actual_index := series.*1 in
  length (difference expected_index actual_index).

(** Lines 57-105, for a run in which the four calls that reach the file
    system or read the deferred chunks return: [mkdir] (line 58),
    [compute] (line 90), [to_netcdf] (line 98) and [to_csv] (line 103).
    [main_io] below is the same run with the failures of these calls. *)
Definition main (env : Env) : M unit :=
  emit (Mkdir OUTPUT_DIR);;
  ds ← open_aorc_dataset env (AORC_ZARR_URI env);
  apcp ← lift (from_option inr (inl (KeyError "apcp")) (ds !! "apcp"));
  names ← lift (resolve_names apcp);
  let '(lat_name, lon_name) := names in
  emit (LogInfo "Subsetting data in time and space" []);;
  subset ← lift (select_subset apcp lat_name lon_name);
  if bool_decide (length (time subset) = 0%nat)
  then raise (ValueError "No time steps found in requested subset.")
  else
    area_mean_series ← lift (area_mean subset lat_name);
    emit (LogInfo "Computing QA metrics" []);;
    let missing := missing_hours area_mean_series in
    max_timestamp ← lift (idxmax env area_mean_series);
    let max_value := nanmax area_mean_series in
    emit (LogInfo "Missing hours in requested period: %d" [AInt missing]);;
    emit (LogInfo "Max hourly area-mean apcp: %.4f at %s"
            [AFloat max_value; ATimestamp max_timestamp]);;
    emit (LogInfo "Writing NetCDF subset to %s" [AStr SUBSET_NETCDF]);;
    emit (ToNetCDF SUBSET_NETCDF "apcp" subset);;
    emit (LogInfo "Writing area-mean CSV to %s" [AStr AREA_MEAN_CSV]);;
    let csv_df :=
      {| index_name := "time"; column := "apcp_area_mean";
         rows := area_mean_series |} in
    emit (ToCSV AREA_MEAN_CSV (to_csv csv_df));;
    emit (LogInfo "Done" []).

(** What the four calls do on the machine of the run, whatever the store
    holds: each returns or raises.  [io_mkdir] is [OUTPUT_DIR.mkdir]
    (line 58); [io_compute] is [area_mean.compute()] (line 90), which reads
    the chunks of the subset; [io_to_netcdf] is [to_netcdf] (line 98),
    which reads the subset again and writes it; [io_to_csv] is [to_csv]
    (line 103). *)
Record IO := {
  io_mkdir : exn + unit;
  io_compute : exn + unit;
  io_to_netcdf : exn + unit;
  io_to_csv : exn + unit;
}.

(** All four calls return. *)
Definition io_ok : IO :=
  {| io_mkdir := inr tt; io_compute := inr tt;
     io_to_netcdf := inr tt; io_to_csv := inr tt |}.

(** Lines 57-105 with the four calls.  An event of the trace records a
    call that returned: a call that raises leaves no event, whatever it
    left on disk. *)
Definition main_io (io : IO) (env : Env) : M unit :=
  lift (io_mkdir io);;
  emit (Mkdir OUTPUT_DIR);;
  ds ← open_aorc_dataset env (AORC_ZARR_URI env);
  apcp ← lift (from_option inr (inl (KeyError "apcp")) (ds !! "apcp"));
  names ← lift (resolve_names apcp);
  let '(lat_name, lon_name) := names in
  emit (LogInfo "Subsetting data in time and space" []);;
  subset ← lift (select_subset apcp lat_name lon_name);
  if bool_decide (length (time subset) = 0%nat)
  then raise (ValueError "No time steps found in requested subset.")
  else
    area_mean_lazy ← lift (area_mean subset lat_name);
    emit (LogInfo "Computing QA metrics" []);;
    let missing := missing_hours area_mean_lazy in
    lift (io_compute io);;
    let area_mean_series := area_mean_lazy in
    max_timestamp ← lift (idxmax env area_mean_series);
    let max_value := nanmax area_mean_series in
    emit (LogInfo "Missing hours in requested period: %d" [AInt missing]);;
    emit (LogInfo "Max hourly area-mean apcp: %.4f at %s"
            [AFloat max_value; ATimestamp max_timestamp]);;
    emit (LogInfo "Writing NetCDF subset to %s" [AStr SUBSET_NETCDF]);;
    lift (io_to_netcdf io);;
    emit (ToNetCDF SUBSET_NETCDF "apcp" subset);;
    emit (LogInfo "Writing area-mean CSV to %s" [AStr AREA_MEAN_CSV]);;
    let csv_df :=
      {| index_name := "time"; column := "apcp_area_mean";
         rows := area_mean_series |} in
    lift (io_to_csv io);;
    emit (ToCSV AREA_MEAN_CSV (to_csv csv_df));;
    emit (LogInfo "Done" []).

(** The files a trace writes. *)
Definition is_write (ev : event) : bool :=
  match ev with
  | ToNetCDF _ _ _ | ToCSV _ _ => true
  | _ => false
  end.

Definition written (tr : list event) : list event := List.filter is_write tr.

(** The tabular files a trace writes, with their lines. *)
Definition csv_written (tr : list event) : list (string * list (list cell)) :=
  omap (λ ev, match ev with
              | ToCSV path lines => Some (path, lines)
              | _ => None
              end) tr.

(** The events of a run that gets through QA, after those of the
    connector. *)
Definition completed_events (subset : DataArray) (series : Series)
    (max_timestamp : option Z) : list event :=
  [ LogInfo "Subsetting data in time and space" [];
    LogInfo "Computing QA metrics" [];
    LogInfo "Missing hours in requested period: %d" [AInt (missing_hours series)];
    LogInfo "Max hourly area-mean apcp: %.4f at %s"
      [AFloat (nanmax series); ATimestamp max_timestamp];
    LogInfo "Writing NetCDF subset to %s" [AStr SUBSET_NETCDF];
    ToNetCDF SUBSET_NETCDF "apcp" subset;
    LogInfo "Writing area-mean CSV to %s" [AStr AREA_MEAN_CSV];
    ToCSV AREA_MEAN_CSV
      (to_csv {| index_name := "time"; column := "apcp_area_mean";
                 rows := series |});
    LogInfo "Done" [] ].

(** Every way a run can go, stage by stage. *)
Inductive outcome (env : Env) : M unit → Prop :=
  | open_failed tr0 e :
      open_aorc_dataset env (AORC_ZARR_URI env) = (tr0, inl e) →
      outcome env (Mkdir OUTPUT_DIR :: tr0, inl e)
  | names_failed tr0 ds apcp e :
      open_aorc_dataset env (AORC_ZARR_URI env) = (tr0, inr ds) →
      ds !! "apcp" = Some apcp →
      resolve_names apcp = inl e →
      outcome env (Mkdir OUTPUT_DIR :: tr0, inl e)
  | subset_failed tr0 ds apcp lat_name lon_name e :
      open_aorc_dataset env (AORC_ZARR_URI env) = (tr0, inr ds) →
      ds !! "apcp" = Some apcp →
      resolve_names apcp = inr (lat_name, lon_name) →
      select_subset apcp lat_name lon_name = inl e →
      outcome env
        (Mkdir OUTPUT_DIR :: tr0
           ++ [LogInfo "Subsetting data in time and space" []], inl e)
  | subset_empty tr0 ds apcp lat_name lon_name subset :
      open_aorc_dataset env (AORC_ZARR_URI env) = (tr0, inr ds) →
      ds !! "apcp" = Some apcp →
      resolve_names apcp = inr (lat_name, lon_name) →
      select_subset apcp lat_name lon_name = inr subset →
      time subset = [] →
      outcome env
        (Mkdir OUTPUT_DIR :: tr0
           ++ [LogInfo "Subsetting data in time and space" []],
         inl (ValueError "No time steps found in requested subset."))
  | qa_failed tr0 ds apcp lat_name lon_name subset series e :
      open_aorc_dataset env (AORC_ZARR_URI env) = (tr0, inr ds) →
      ds !! "apcp" = Some apcp →
      resolve_names apcp = inr (lat_name, lon_name) →
      select_subset apcp lat_name lon_name = inr subset →
      time subset ≠ [] →
      area_mean subset lat_name = inr series →
      idxmax env series = inl e →
      outcome env
        (Mkdir OUTPUT_DIR :: tr0
           ++ [LogInfo "Subsetting data in time and space" [];
               LogInfo "Computing QA metrics" []], inl e)
  | completed tr0 ds apcp lat_name lon_name subset series max_timestamp :
      open_aorc_dataset env (AORC_ZARR_URI env) = (tr0, inr ds) →
      ds !! "apcp" = Some apcp →
      resolve_names apcp = inr (lat_name, lon_name) →
      select_subset apcp lat_name lon_name = inr subset →
      time subset ≠ [] →
      area_mean subset lat_name = inr series →
      idxmax env series = inr max_timestamp →
      outcome env
        (Mkdir OUTPUT_DIR :: tr0
           ++ completed_events subset series max_timestamp, inr tt).

(** Every way a run can go when the four calls can raise.  A run that
    stops at the gridded write has logged the first five events of a
    completed run; one that stops at the tabular write, the first seven,
    the gridded write among them. *)
Inductive outcome_io (io : IO) (env : Env) : M unit → Prop :=
  | io_mkdir_failed e :
      io_mkdir io = inl e →
      outcome_io io env ([], inl e)
  | io_open_failed tr0 e :
      io_mkdir io = inr tt →
      open_aorc_dataset env (AORC_ZARR_URI env) = (tr0, inl e) →
      outcome_io io env (Mkdir OUTPUT_DIR :: tr0, inl e)
  | io_names_failed tr0 ds apcp e :
      io_mkdir io = inr tt →
      open_aorc_dataset env (AORC_ZARR_URI env) = (tr0, inr ds) →
      ds !! "apcp" = Some apcp →
      resolve_names apcp = inl e →
      outcome_io io env (Mkdir OUTPUT_DIR :: tr0, inl e)
  | io_subset_failed tr0 ds apcp lat_name lon_name e :
      io_mkdir io = inr tt →
      open_aorc_dataset env (AORC_ZARR_URI env) = (tr0, inr ds) →
      ds !! "apcp" = Some apcp →
      resolve_names apcp = inr (lat_name, lon_name) →
      select_subset apcp lat_name lon_name = inl e →
      outcome_io io env
        (Mkdir OUTPUT_DIR :: tr0
           ++ [LogInfo "Subsetting data in time and space" []], inl e)
  | io_subset_empty tr0 ds apcp lat_name lon_name subset :
      io_mkdir io = inr tt →
      open_aorc_dataset env (AORC_ZARR_URI env) = (tr0, inr ds) →
      ds !! "apcp" = Some apcp →
      resolve_names apcp = inr (lat_name, lon_name) →
      select_subset apcp lat_name lon_name = inr subset →
      time subset = [] →
      outcome_io io env
        (Mkdir OUTPUT_DIR :: tr0
           ++ [LogInfo "Subsetting data in time and space" []],
         inl (ValueError "No time steps found in requested subset."))
  | io_compute_failed tr0 ds apcp lat_name lon_name subset series e :
      io_mkdir io = inr tt →
      open_aorc_dataset env (AORC_ZARR_URI env) = (tr0, inr ds) →
      ds !! "apcp" = Some apcp →
      resolve_names apcp = inr (lat_name, lon_name) →
      select_subset apcp lat_name lon_name = inr subset →
      time subset ≠ [] →
      area_mean subset lat_name = inr series →
      io_compute io = inl e →
      outcome_io io env
        (Mkdir OUTPUT_DIR :: tr0
           ++ [LogInfo "Subsetting data in time and space" [];
               LogInfo "Computing QA metrics" []], inl e)
  | io_qa_failed tr0 ds apcp lat_name lon_name subset series e :
      io_mkdir io = inr tt →
      open_aorc_dataset env (AORC_ZARR_URI env) = (tr0, inr ds) →
      ds !! "apcp" = Some apcp →
      resolve_names apcp = inr (lat_name, lon_name) →
      select_subset apcp lat_name lon_name = inr subset →
      time subset ≠ [] →
      area_mean subset lat_name = inr series →
      io_compute io = inr tt →
      idxmax env series = inl e →
      outcome_io io env
        (Mkdir OUTPUT_DIR :: tr0
           ++ [LogInfo "Subsetting data in time and space" [];
               LogInfo "Computing QA metrics" []], inl e)
  | io_netcdf_failed tr0 ds apcp lat_name lon_name subset series
      max_timestamp e :
      io_mkdir io = inr tt →
      open_aorc_dataset env (AORC_ZARR_URI env) = (tr0, inr ds) →
      ds !! "apcp" = Some apcp →
      resolve_names apcp = inr (lat_name, lon_name) →
      select_subset apcp lat_name lon_name = inr subset →
      time subset ≠ [] →
      area_mean subset lat_name = inr series →
      io_compute io = inr tt →
      idxmax env series = inr max_timestamp →
      io_to_netcdf io = inl e →
      outcome_io io env
        (Mkdir OUTPUT_DIR :: tr0
           ++ take 5 (completed_events subset series max_timestamp), inl e)
  | io_csv_failed tr0 ds apcp lat_name lon_name subset series
      max_timestamp e :
      io_mkdir io = inr tt →
      open_aorc_dataset env (AORC_ZARR_URI env) = (tr0, inr ds) →
      ds !! "apcp" = Some apcp →
      resolve_names apcp = inr (lat_name, lon_name) →
      select_subset apcp lat_name lon_name = inr subset →
      time subset ≠ [] →
      area_mean subset lat_name = inr series →
      io_compute io = inr tt →
      idxmax env series = inr max_timestamp →
      io_to_netcdf io = inr tt →
      io_to_csv io = inl e →
      outcome_io io env
        (Mkdir OUTPUT_DIR :: tr0
           ++ take 7 (completed_events subset series max_timestamp), inl e)
  | io_completed tr0 ds apcp lat_name lon_name subset series max_timestamp :
      io_mkdir io = inr tt →
      open_aorc_dataset env (AORC_ZARR_URI env) = (tr0, inr ds) →
      ds !! "apcp" = Some apcp →
      resolve_names apcp = inr (lat_name, lon_name) →
      select_subset apcp lat_name lon_name = inr subset →
      time subset ≠ [] →
      area_mean subset lat_name = inr series →
      io_compute io = inr tt →
      idxmax env series = inr max_timestamp →
      io_to_netcdf io = inr tt →
      io_to_csv io = inr tt →
      outcome_io io env
        (Mkdir OUTPUT_DIR :: tr0
           ++ completed_events subset series max_timestamp, inr tt).

(** The cells of a labelled array match its axes: one grid per time step,
    one row per latitude, one cell per longitude. *)
Definition well_formed (da : DataArray) (lat_name lon_name : string) : Prop :=
  ∃ lats lons,
    coords da !! lat_name = Some lats
    ∧ coords da !! lon_name = Some lons
    ∧ length (values da) = length (time da)
    ∧ Forall (λ grid, length grid = length lats
                      ∧ Forall (λ row, length row = length lons) grid)
        (values da).

(** ** Synthetic stores

    A store holding the one variable over the given axes, opened by either
    attempt, for running the pipeline on small grids. *)

Definition grid_dataset (times : list Z) (lats lons : list R)
    (cells : list (list (list (option R)))) : Dataset :=
  {[ "apcp" :=
       {| coords := {[ "latitude" := lats; "longitude" := lons ]};
          time := times;
          values := cells |} ]}.

Definition fixed_env (ds : Dataset) (all_na_raises : bool) : Env :=
  {| AORC_ZARR_URI := "s3://noaa-nws-aorc-v1-1-1km";
     store := λ _, inr ds;
     idxmax_all_na_raises := all_na_raises |}.

(** * Properties *)

Global Instance Rle_transitive : Transitive Rle := Rle_trans.

Global Instance Rle_total : Total Rle.
Proof. intros x y. destruct (Rle_dec x y); [by left | right; lra]. Qed.

(** ** Label slices on a monotonic index *)

Section index_facts.
Context {A : Type} (le : relation A) `{!RelDecision le}.
Context `{!Transitive le} `{!Total le}.

Implicit Types (idx : list A) (lo hi : A).

Lemma is_monotonic_increasing_Sorted idx :
  is_monotonic_increasing le idx = true ↔ Sorted le idx.
Proof.
  induction idx as [|x [|y tl] IH]; simpl.
  - split; [|done]. intros _. constructor.
  - split; [|done]. intros _. repeat constructor.
  - rewrite andb_true_iff, bool_decide_eq_true, IH. split.
    + intros [Hxy Hs]. constructor; [done | by constructor].
    + intros Hs. inv Hs as [|?? Hs' Hhd]. by inv Hhd.
Qed.

Lemma positional_nil {B} (ij : nat * nat) : positional (@nil B) ij = [].
Proof. unfold positional. by rewrite take_nil, drop_nil. Qed.

Lemma positional_cons_S {B} (x : B) xs i j :
  positional (x :: xs) (S i, S j) = positional xs (i, j).
Proof. done. Qed.

Lemma searchsorted_le_length idx v sd :
  (searchsorted le idx v sd ≤ length idx)%nat.
Proof.
  induction idx as [|x tl IH]; simpl; [lia|].
  destruct (before le sd v x); simpl; lia.
Qed.

Lemma filter_within_above x idx lo hi :
  ¬ le x hi → Forall (le x) idx →
  filter (λ y, le lo y ∧ le y hi) idx = [].
Proof.
  intros Hx Hall. induction Hall as [|y tl Hxy _ IH]; [done|].
  rewrite filter_cons_False; [done|].
  intros [_ Hy]. apply Hx. by trans y.
Qed.

Lemma take_searchsorted_right idx lo hi :
  StronglySorted le idx → Forall (le lo) idx →
  take (searchsorted le idx hi Right) idx
  = filter (λ y, le lo y ∧ le y hi) idx.
Proof.
  induction 1 as [|x tl Hs IH Hx]; intros Hlo; [done|].
  apply Forall_cons in Hlo as [Hlox Hlo]. simpl.
  case_bool_decide as Hxhi; simpl.
  - rewrite filter_cons_True by done. f_equal. by apply IH.
  - rewrite filter_cons_False by (intros [_ ?]; done).
    symmetry. by eapply filter_within_above.
Qed.

(** On an ascending index the positional range between the two insertion
    points holds exactly the labels of the closed interval. *)
Lemma positional_searchsorted idx lo hi :
  StronglySorted le idx →
  positional idx (searchsorted le idx lo Left, searchsorted le idx hi Right)
  = filter (λ y, le lo y ∧ le y hi) idx.
Proof.
  induction 1 as [|x tl Hs IH Hx]; [done|]. simpl.
  case_bool_decide as Hlox; simpl.
  - rewrite filter_cons_False by (intros [? _]; done).
    case_bool_decide as Hxhi; simpl.
    + by rewrite positional_cons_S.
    + unfold positional; simpl.
      symmetry. by eapply filter_within_above.
  - assert (le lo x) as Hlo by (by destruct (total le lo x)).
    change (take (searchsorted le (x :: tl) hi Right) (x :: tl)
            = filter (λ y, le lo y ∧ le y hi) (x :: tl)).
    apply take_searchsorted_right; [by constructor|].
    constructor; [done|].
    eapply Forall_impl; [exact Hx|]. intros y Hy. by trans x.
Qed.

(** Counting a positional range from the end is reading the reversed
    list and reversing the result. *)
Lemma positional_reverse {B} (xs : list B) i j :
  (i ≤ length xs)%nat → (j ≤ length xs)%nat →
  positional xs (length xs - j, length xs - i)%nat
  = reverse (positional (reverse xs) (i, j)).
Proof.
  intros Hi Hj. unfold positional; simpl.
  rewrite take_reverse, drop_reverse, reverse_involutive, length_drop.
  replace (length xs - (length xs - j) - i)%nat with (j - i)%nat by lia.
  destruct (decide (i ≤ j)%nat).
  - rewrite take_drop_commute. f_equal. f_equal. lia.
  - replace (j - i)%nat with 0%nat by lia. simpl.
    apply drop_ge. rewrite length_take. lia.
Qed.

Lemma sel_labels_increasing idx lo hi :
  is_monotonic_increasing le idx = true →
  sel_labels le idx (Slice lo hi)
  = inr (filter (λ y, le lo y ∧ le y hi) idx).
Proof.
  intros Hinc. unfold sel_labels, slice_locs, get_slice_bound; simpl.
  rewrite Hinc. f_equal. apply positional_searchsorted.
  by apply Sorted_StronglySorted, is_monotonic_increasing_Sorted.
Qed.

Lemma is_monotonic_decreasing_Sorted idx :
  is_monotonic_decreasing le idx = true ↔ Sorted (flip le) idx.
Proof.
  induction idx as [|x [|y tl] IH]; simpl.
  - split; [|done]. intros _. constructor.
  - split; [|done]. intros _. repeat constructor.
  - rewrite andb_true_iff, bool_decide_eq_true, IH. split.
    + intros [Hxy Hs]. constructor; [done | by constructor].
    + intros Hs. inv Hs as [|?? Hs' Hhd]. by inv Hhd.
Qed.

Lemma is_monotonic_decreasing_reverse idx :
  is_monotonic_decreasing le idx = true →
  is_monotonic_increasing le (reverse idx) = true.
Proof.
  intros Hdec. apply is_monotonic_increasing_Sorted.
  by apply (Sorted_reverse (flip le)), is_monotonic_decreasing_Sorted.
Qed.

Lemma is_monotonic_increasing_reverse idx :
  is_monotonic_increasing le idx = true →
  is_monotonic_decreasing le (reverse idx) = true.
Proof.
  intros Hinc. apply is_monotonic_decreasing_Sorted.
  by apply Sorted_reverse, is_monotonic_increasing_Sorted.
Qed.

Lemma sel_labels_decreasing idx lo hi :
  is_monotonic_increasing le idx = false →
  is_monotonic_decreasing le idx = true →
  sel_labels le idx (Slice hi lo)
  = inr (filter (λ y, le lo y ∧ le y hi) idx).
Proof.
  intros Hninc Hdec. unfold sel_labels, slice_locs, get_slice_bound; simpl.
  rewrite Hninc, Hdec. f_equal.
  rewrite positional_reverse by apply searchsorted_le_length || (rewrite <-length_reverse; apply searchsorted_le_length).
  rewrite positional_searchsorted, filter_reverse, reverse_involutive; [done|].
  by apply Sorted_StronglySorted, is_monotonic_increasing_Sorted,
    is_monotonic_decreasing_reverse.
Qed.

End index_facts.

(** ** The order-safe slice helper *)

Lemma head_le_last_increasing (l : list R) c0 cl :
  is_monotonic_increasing Rle l = true →
  head l = Some c0 → last l = Some cl → c0 <= cl.
Proof.
  intros Hinc Hh Hl.
  apply is_monotonic_increasing_Sorted, Sorted_StronglySorted in Hinc; [|apply _].
  destruct l as [|x tl]; simplify_eq/=.
  apply StronglySorted_cons in Hinc as [Hall _].
  apply last_Some_elem_of, elem_of_cons in Hl as [->|Hin]; [lra|].
  by eapply Forall_forall in Hall.
Qed.

Lemma last_le_head_decreasing (l : list R) c0 cl :
  is_monotonic_decreasing Rle l = true →
  head l = Some c0 → last l = Some cl → cl <= c0.
Proof.
  intros Hdec Hh Hl. apply is_monotonic_decreasing_reverse in Hdec.
  eapply head_le_last_increasing; [done| |].
  - by rewrite head_reverse.
  - by rewrite last_reverse.
Qed.

(** A descending array whose first entry is not above its last is
    constant, hence ascending as well. *)
Lemma decreasing_flat_increasing (l : list R) c0 cl :
  is_monotonic_decreasing Rle l = true →
  head l = Some c0 → last l = Some cl → c0 <= cl →
  is_monotonic_increasing Rle l = true.
Proof.
  revert c0. induction l as [|x [|y tl] IH]; intros c0 Hdec Hh Hl Hle; [done..|].
  simplify_eq/=. apply andb_true_iff in Hdec as [Hyx%bool_decide_eq_true Hdec].
  rewrite ?last_cons_cons in Hl.
  pose proof (last_le_head_decreasing (y :: tl) y cl Hdec eq_refl Hl).
  apply andb_true_iff. split.
  - apply bool_decide_eq_true. lra.
  - apply (IH y); [done..|lra].
Qed.

Lemma select_coordinate_filter (coordinate : list R) (min_value max_value : R) :
  coordinate ≠ [] →
  is_monotonic_increasing Rle coordinate = true
  ∨ is_monotonic_decreasing Rle coordinate = true →
  select_coordinate min_value max_value coordinate
  = inr (filter (λ y, min_value <= y ∧ y <= max_value) coordinate).
Proof.
  intros Hne Hmono. unfold select_coordinate, _get_slice.
  apply head_is_Some in Hne as Hh. destruct Hh as [c0 Hh].
  apply last_is_Some in Hne as Hl. destruct Hl as [cl Hl].
  rewrite Hh, Hl. simpl.
  destruct (is_monotonic_increasing Rle coordinate) eqn:Hinc.
  - rewrite bool_decide_eq_true_2 by by eapply head_le_last_increasing.
    by apply sel_labels_increasing; [apply _..|].
  - destruct Hmono as [|Hdec]; [done|].
    rewrite bool_decide_eq_false_2.
    + by apply sel_labels_decreasing; [apply _..| |].
    + intros Hle. by rewrite (decreasing_flat_increasing _ _ _ Hdec Hh Hl Hle) in Hinc.
Qed.

(** Decide the comparisons of concrete reals that a test evaluates. *)
Ltac decide_reals :=
  repeat match goal with
    | |- context [bool_decide ?P] =>
        first [ rewrite (bool_decide_eq_true_2 P) by lra
              | rewrite (bool_decide_eq_false_2 P) by lra ]
    | |- context [filter ?P (?x :: ?l)] =>
        first [ rewrite (filter_cons_True P x l) by (simpl; lra)
              | rewrite (filter_cons_False P x l) by (simpl; lra) ]
    | |- context [filter ?P []] => rewrite (filter_nil P)
    end; simpl.

(** C1 (amended): on a non-empty coordinate array stored ascending or
    descending, the slice built by [_get_slice] selects exactly the entries
    lying in [[min_value, max_value]]; the array stored in the opposite
    order yields the same entries (in opposite order), and the selection is
    non-empty exactly when some entry of the array lies within the
    bounds. *)
Theorem get_slice_order_safe (coordinate : list R) (min_value max_value : R) :
  coordinate ≠ [] →
  is_monotonic_increasing Rle coordinate = true
  ∨ is_monotonic_decreasing Rle coordinate = true →
  ∃ selected,
    select_coordinate min_value max_value coordinate = inr selected
    ∧ select_coordinate min_value max_value (reverse coordinate)
      = inr (reverse selected)
    ∧ (∀ y, y ∈ selected ↔ y ∈ coordinate ∧ min_value <= y <= max_value)
    ∧ (selected ≠ [] ↔ ∃ y, y ∈ coordinate ∧ min_value <= y <= max_value).
Proof.
  intros Hne Hmono.
  exists (filter (λ y, min_value <= y ∧ y <= max_value) coordinate).
  assert (∀ y, y ∈ filter (λ y, min_value <= y ∧ y <= max_value) coordinate
               ↔ y ∈ coordinate ∧ min_value <= y <= max_value) as Hmem.
  { intros y. rewrite list_elem_of_filter. tauto. }
  split_and!.
  - by apply select_coordinate_filter.
  - rewrite select_coordinate_filter, filter_reverse; [done| |].
    + intros Hnil. apply Hne.
      by rewrite <-(reverse_involutive coordinate), Hnil.
    + destruct Hmono as [Hinc|Hdec].
      * right. by apply is_monotonic_increasing_reverse.
      * left. by apply is_monotonic_decreasing_reverse.
  - done.
  - split.
    + intros Hsel.
      destruct (filter _ coordinate) as [|y l] eqn:Hf; [done|].
      exists y. apply Hmem. left.
    + intros [y Hy] Hnil. apply Hmem in Hy. rewrite Hnil in Hy.
      by apply elem_of_nil in Hy.
Qed.

Lemma get_slice_order_safe_witness :
  ∃ selected,
    select_coordinate 37.60 37.85 [38; 37.7; 37] = inr selected
    ∧ select_coordinate 37.60 37.85 (reverse [38; 37.7; 37])
      = inr (reverse selected)
    ∧ (∀ y, y ∈ selected ↔ y ∈ [38; 37.7; 37] ∧ 37.60 <= y <= 37.85)
    ∧ (selected ≠ [] ↔ ∃ y, y ∈ [38; 37.7; 37] ∧ 37.60 <= y <= 37.85).
Proof.
  apply (get_slice_order_safe [38; 37.7; 37] 37.60 37.85).
  - discriminate.
  - right. simpl. decide_reals. reflexivity.
Defined.

(** C1 as stated fails between grid points: the bounds [[3, 4]] overlap
    the extent of the ascending array [[0; 10]], and the selection is
    empty. *)
Lemma get_slice_gap_counterexample :
  is_monotonic_increasing Rle [0; 10] = true
  ∧ 3 <= 4
  ∧ overlaps_coverage 3 4 [0; 10]
  ∧ select_coordinate 3 4 [0; 10] = inr [].
Proof.
  split_and!.
  - simpl. decide_reals. reflexivity.
  - lra.
  - exists 0, 10. split_and!; [done..| |].
    + unfold Rmin. destruct (Rle_dec 0 10); lra.
    + unfold Rmax. destruct (Rle_dec 0 10); lra.
  - rewrite select_coordinate_filter.
    + decide_reals. reflexivity.
    + discriminate.
    + left. simpl. decide_reals. reflexivity.
Qed.

(** The guard matters: the unswapped range against a descending axis
    selects nothing, without an error. *)
Lemma wrong_order_slice_empty :
  sel_labels Rle [38; 37.7; 37] (Slice 37.60 37.85) = inr [].
Proof.
  unfold sel_labels, slice_locs, get_slice_bound. simpl.
  decide_reals. reflexivity.
Qed.

(** ** Latitude weights and the weighted mean *)

Lemma deg2rad_0 : deg2rad 0 = 0.
Proof. unfold deg2rad. lra. Qed.

Lemma deg2rad_60 : deg2rad 60 = PI / 3.
Proof. unfold deg2rad. lra. Qed.

Lemma weights_of_0_60 : weights_of [0; 60] = [1; 1 / 2].
Proof.
  unfold weights_of. simpl.
  by rewrite deg2rad_0, deg2rad_60, cos_0, cos_PI3.
Qed.

Lemma weights_of_positive (lats : list R) :
  Forall (λ φ, -90 < φ < 90) lats → Forall (Rlt 0) (weights_of lats).
Proof.
  unfold weights_of. rewrite <-list_fmap_compose, Forall_fmap.
  intros Hall. eapply Forall_impl; [exact Hall|].
  intros φ [Hlo Hhi]. simpl.
  pose proof PI_RGT_0 as Hpi.
  assert (0 < PI / 180) as Hk by lra.
  apply cos_gt_0; unfold deg2rad.
  - apply (Rmult_lt_compat_r _ _ _ Hk) in Hlo. lra.
  - apply (Rmult_lt_compat_r _ _ _ Hk) in Hhi. lra.
Qed.

(** One latitude row of the reduction. *)
Lemma row_sum_replicate (f : option R → R) (v : option R) (w : R) (n : nat) :
  sum_list ((λ v, f v * w) <$> replicate n v) = INR n * (f v * w).
Proof.
  unfold sum_list. induction n as [|n IH].
  - csimpl. lra.
  - rewrite S_INR. csimpl. rewrite IH. lra.
Qed.

Lemma row_sum_notnull_nonneg (row : list (option R)) (w : R) :
  0 < w → 0 <= sum_list ((λ v, notnull v * w) <$> row).
Proof.
  intros Hw. unfold sum_list.
  induction row as [|[x|] row IH]; csimpl in *; lra.
Qed.

Lemma row_sum_notnull_positive (row : list (option R)) (w : R) :
  0 < w → (∃ x, Some x ∈ row) → 0 < sum_list ((λ v, notnull v * w) <$> row).
Proof.
  intros Hw [x Hx].
  induction row as [|v row IH]; [by apply elem_of_nil in Hx|].
  pose proof (row_sum_notnull_nonneg row w Hw) as Hge.
  unfold sum_list in *.
  apply elem_of_cons in Hx as [<-|Hx]; csimpl in *; [lra|].
  specialize (IH Hx). destruct v; csimpl; lra.
Qed.

Lemma row_sum_all_missing (f : option R → R) (row : list (option R)) (w : R) :
  f None = 0 → Forall (λ v, v = None) row →
  sum_list ((λ v, f v * w) <$> row) = 0.
Proof.
  intros Hf. unfold sum_list.
  induction 1 as [|v row -> _ IH]; csimpl in *; [done|].
  rewrite IH, Hf. lra.
Qed.

Lemma dot_notnull_nonneg (grid : list (list (option R))) (weights : list R) :
  Forall (Rlt 0) weights → 0 <= dot notnull grid weights.
Proof.
  intros Hw. revert grid.
  induction Hw as [|w weights Hw _ IH]; intros [|row grid];
    try (unfold dot, sum_list; csimpl; lra).
  pose proof (row_sum_notnull_nonneg row w Hw).
  specialize (IH grid). unfold dot, sum_list in *. csimpl. lra.
Qed.

Lemma dot_notnull_positive (grid : list (list (option R))) (weights : list R) :
  Forall (Rlt 0) weights → length grid = length weights →
  (∃ row x, row ∈ grid ∧ Some x ∈ row) →
  0 < dot notnull grid weights.
Proof.
  intros Hw. revert grid.
  induction Hw as [|w weights Hw Hws IH]; intros [|row grid] Hlen (r & x & Hr & Hx);
    simplify_eq/=; try by apply elem_of_nil in Hr.
  pose proof (row_sum_notnull_nonneg row w Hw).
  pose proof (dot_notnull_nonneg grid weights Hws) as Hrest.
  apply elem_of_cons in Hr as [->|Hr].
  - pose proof (row_sum_notnull_positive row w Hw (ex_intro _ x Hx)).
    unfold dot, sum_list in *. csimpl. lra.
  - specialize (IH grid Hlen (ex_intro _ r (ex_intro _ x (conj Hr Hx)))).
    unfold dot, sum_list in *. csimpl. lra.
Qed.

Lemma dot_all_missing (f : option R → R) (grid : list (list (option R)))
    (weights : list R) :
  f None = 0 → Forall (Forall (λ v, v = None)) grid → dot f grid weights = 0.
Proof.
  intros Hf Hall. revert weights.
  induction Hall as [|row grid Hrow _ IH]; intros [|w weights]; try done.
  pose proof (row_sum_all_missing f row w Hf Hrow) as Hr.
  specialize (IH weights). unfold dot, sum_list in *. csimpl. lra.
Qed.

Lemma weighted_mean_two_rows (a b : R) (n : nat) :
  (0 < n)%nat →
  weighted_mean [1; 1 / 2] [replicate n (Some a); replicate n (Some b)]
  = Some ((2 * a + b) / 3).
Proof.
  intros Hn%lt_0_INR. unfold weighted_mean, dot. csimpl.
  rewrite !row_sum_replicate. simpl.
  rewrite bool_decide_eq_false_2 by lra.
  f_equal. field. lra.
Qed.

Lemma row_sum_factor (f : option R → R) (row : list (option R)) (w : R) :
  sum_list ((λ v, f v * w) <$> row) = sum_list (f <$> row) * w.
Proof.
  unfold sum_list. induction row as [|v row IH]; csimpl; [lra|].
  rewrite IH. lra.
Qed.

Lemma dot_by_rows (f : option R → R) (grid : list (list (option R)))
    (weights : list R) :
  dot f grid weights
  = sum_list (zip_with (λ row w, sum_list (f <$> row) * w) grid weights).
Proof.
  unfold dot. f_equal. revert weights.
  induction grid as [|row grid IH]; intros [|w weights]; csimpl; [done..|].
  by rewrite row_sum_factor, IH.
Qed.

(** C2 (amended): the weights are the cosines of the latitudes converted
    to radians, one per latitude row, and every cell of a row is weighted
    by the weight of its row, whatever its longitude.  In exact arithmetic
    the weights of rows at 0 and 60 degrees are 1 and 1/2, a ratio of 2,
    and a grid whose rows hold the constants [a] and [b] reduces to
    [(2a + b) / 3] at every time step. *)
Theorem area_mean_two_rows (subset : DataArray) (lat_name : string)
    (ab : list (R * R)) (n : nat) :
  (0 < n)%nat →
  coords subset !! lat_name = Some [0; 60] →
  values subset
  = (λ p, [replicate n (Some p.1); replicate n (Some p.2)]) <$> ab →
  (∀ lats, weights_of lats = (λ φ, cos (φ * (PI / 180))) <$> lats)
  ∧ (∀ f grid weights,
       dot f grid weights
       = sum_list (zip_with (λ row w, sum_list (f <$> row) * w) grid weights))
  ∧ weights_of [0; 60] = [1; 1 / 2]
  ∧ cos (deg2rad 0) / cos (deg2rad 60) = 2
  ∧ area_mean subset lat_name
    = inr (zip (time subset) ((λ p, Some ((2 * p.1 + p.2) / 3)) <$> ab)).
Proof.
  intros Hn Hlat Hvalues. split_and!.
  - intros lats. unfold weights_of. by rewrite <-list_fmap_compose.
  - apply dot_by_rows.
  - apply weights_of_0_60.
  - rewrite deg2rad_0, deg2rad_60, cos_0, cos_PI3. lra.
  - unfold area_mean, coordinate. rewrite Hlat. simpl.
    rewrite Hvalues, weights_of_0_60, <-list_fmap_compose.
    do 2 f_equal. apply list_fmap_ext. intros _ [a b] _. simpl.
    by apply weighted_mean_two_rows.
Qed.

Lemma area_mean_two_rows_witness :
  let subset :=
    {| coords := {[ "latitude" := [0; 60] ]};
       time := [TIME_START];
       values := [[replicate 3 (Some 4); replicate 3 (Some 1)]] |} in
  (∀ lats, weights_of lats = (λ φ, cos (φ * (PI / 180))) <$> lats)
  ∧ (∀ f grid weights,
       dot f grid weights
       = sum_list (zip_with (λ row w, sum_list (f <$> row) * w) grid weights))
  ∧ weights_of [0; 60] = [1; 1 / 2]
  ∧ cos (deg2rad 0) / cos (deg2rad 60) = 2
  ∧ area_mean subset "latitude"
    = inr (zip (time subset) ((λ p, Some ((2 * p.1 + p.2) / 3)) <$> [(4, 1)])).
Proof.
  intros subset.
  apply (area_mean_two_rows subset "latitude" [(4, 1)] 3).
  - lia.
  - reflexivity.
  - reflexivity.
Defined.

(** C2 as stated fails in the binary64 arithmetic of the script.  The
    latitude 60 is [0x1.0c152382d7365p+0] radians, just below pi/3, and
    its cosine in binary64 is [0x1.0000000000001p-1], just above 1/2.
    With the weights 1 and that number the ratio is
    [0x1.ffffffffffffep+0], not 2, and rows holding 0 and 3 reduce to
    [0x1.0000000000001p+0], not to (2 * 0 + 3) / 3 = 1. *)
Lemma two_rows_binary64_counterexample :
  let w0 := 1%float in
  let w60 := 0x1.0000000000001p-1%float in
  deg2rad64 60 = 0x1.0c152382d7365p+0%float
  ∧ (w0 / w60)%float = 0x1.ffffffffffffep+0%float
  ∧ PrimFloat.eqb (w0 / w60) 2 = false
  ∧ weighted_mean64 [w0; w60] [[0]; [3]]%float = 0x1.0000000000001p+0%float
  ∧ ((2 * 0 + 3) / 3)%float = 1%float
  ∧ PrimFloat.eqb (weighted_mean64 [w0; w60] [[0]; [3]]%float)
      ((2 * 0 + 3) / 3) = false.
Proof. vm_compute. by repeat split. Qed.

Lemma grid_missing_or_not (grid : list (list (option R))) :
  (∃ row x, row ∈ grid ∧ Some x ∈ row)
  ∨ Forall (Forall (λ v, v = None)) grid.
Proof.
  induction grid as [|row grid [(r & x & Hr & Hx)|IH]].
  - right. constructor.
  - left. exists r, x. split; [by right | done].
  - assert ((∃ x, Some x ∈ row) ∨ Forall (λ v, v = None) row) as [[x Hx]|Hrow].
    { clear. induction row as [|[x|] row [[y Hy]|IH]].
      - right. constructor.
      - left. exists x. left.
      - left. exists x. left.
      - left. exists y. by right.
      - right. by constructor. }
    + left. exists row, x. split; [left | done].
    + right. by constructor.
Qed.

(** C10 (amended): for latitudes strictly between -90 and +90 degrees every
    weight is strictly positive; at a time step the total weight counts the
    cells that are not missing, so it is strictly positive and the weighted
    mean is defined exactly when the grid of the step has at least one
    cell that is not missing. *)
Theorem weights_positive_mean_defined (lats : list R)
    (grid : list (list (option R))) :
  Forall (λ φ, -90 < φ < 90) lats →
  length grid = length lats →
  Forall (Rlt 0) (weights_of lats)
  ∧ ((∃ row x, row ∈ grid ∧ Some x ∈ row) →
     0 < dot notnull grid (weights_of lats))
  ∧ (is_Some (weighted_mean (weights_of lats) grid)
     ↔ ∃ row x, row ∈ grid ∧ Some x ∈ row).
Proof.
  intros Hlats Hlen. pose proof (weights_of_positive lats Hlats) as Hw.
  assert (length grid = length (weights_of lats)) as Hlen'.
  { unfold weights_of. by rewrite !length_fmap. }
  split_and!; [done|by apply dot_notnull_positive|].
  unfold weighted_mean. split.
  - intros Hsome. destruct (grid_missing_or_not grid) as [|Hall]; [done|].
    rewrite bool_decide_eq_true_2 in Hsome by by apply dot_all_missing.
    by destruct Hsome.
  - intros Hcell. pose proof (dot_notnull_positive _ _ Hw Hlen' Hcell).
    rewrite bool_decide_eq_false_2 by lra. done.
Qed.

Lemma weights_positive_mean_defined_witness :
  Forall (Rlt 0) (weights_of [0; 60])
  ∧ ((∃ row x, row ∈ [[Some 4; None]; [None; None]] ∧ Some x ∈ row) →
     0 < dot notnull [[Some 4; None]; [None; None]] (weights_of [0; 60]))
  ∧ (is_Some (weighted_mean (weights_of [0; 60]) [[Some 4; None]; [None; None]])
     ↔ ∃ row x, row ∈ [[Some 4; None]; [None; None]] ∧ Some x ∈ row).
Proof.
  apply (weights_positive_mean_defined [0; 60] [[Some 4; None]; [None; None]]).
  - repeat constructor; lra.
  - reflexivity.
Defined.

(** C10 as stated fails on a time step whose cells are all missing: the
    subset is not empty and its latitude is 45 degrees, the total weight is
    zero and the mean is missing. *)
Lemma all_missing_step_counterexample :
  Forall (λ φ, -90 < φ < 90) [45]
  ∧ Forall (Rlt 0) (weights_of [45])
  ∧ dot notnull [[None]] (weights_of [45]) = 0
  ∧ weighted_mean (weights_of [45]) [[None]] = None.
Proof.
  assert (Forall (λ φ, -90 < φ < 90) [45]) as Hlat by (repeat constructor; lra).
  assert (dot notnull [[None]] (weights_of [45]) = 0) as Hdot.
  { apply dot_all_missing; [done|]. by repeat constructor. }
  split_and!; [done|by apply weights_of_positive|done|].
  unfold weighted_mean. by rewrite bool_decide_eq_true_2.
Qed.

(** ** Missing hours *)

Lemma elem_of_date_range (start_ end_ t : Z) :
  t ∈ date_range start_ end_
  ↔ (start_ ≤ t ≤ end_)%Z ∧ ((t - start_) `mod` 3600 = 0)%Z.
Proof.
  unfold date_range. rewrite list_elem_of_fmap. split.
  - intros (k & -> & Hk%elem_of_seqZ).
    pose proof (Z.mul_div_le (end_ - start_) 3600 ltac:(lia)).
    split; [lia|].
    replace (start_ + 3600 * k - start_)%Z with (k * 3600)%Z by lia.
    apply Z.mod_mul. lia.
  - intros [[Hlo Hhi] Hmod]. exists ((t - start_) `div` 3600)%Z. split.
    + pose proof (Z.div_mod (t - start_) 3600 ltac:(lia)). lia.
    + apply elem_of_seqZ. split.
      * apply Z.div_pos; lia.
      * assert ((t - start_) `div` 3600 ≤ (end_ - start_) `div` 3600)%Z
          by (apply Z.div_le_mono; lia).
        lia.
Qed.

Lemma NoDup_date_range (start_ end_ : Z) : NoDup (date_range start_ end_).
Proof.
  unfold date_range. apply NoDup_fmap_2; [|apply NoDup_seqZ].
  intros k1 k2 ?. lia.
Qed.

Lemma length_date_range (start_ end_ : Z) :
  Z.of_nat (length (date_range start_ end_))
  = (0 `max` ((end_ - start_) `div` 3600 + 1))%Z.
Proof. unfold date_range. rewrite length_fmap, length_seqZ. lia. Qed.

(** The expected index of the run has 96432 entries; it is reasoned about
    through the two lemmas above, never enumerated. *)
Opaque date_range.

Lemma elem_of_expected_index (t : Z) :
  t ∈ date_range TIME_START TIME_END
  ↔ (TIME_START ≤ t ≤ TIME_END)%Z ∧ (t `mod` 3600 = 0)%Z.
Proof.
  rewrite elem_of_date_range.
  assert (TIME_START = 350640 * 3600)%Z as -> by reflexivity.
  by rewrite Zminus_mod, Z.mod_mul, Z.sub_0_r, Z.mod_mod by lia.
Qed.

Lemma length_difference (this other : list Z) :
  length (difference this other)
  = size (list_to_set this ∖ list_to_set other : gset Z).
Proof.
  unfold difference.
  rewrite <-(size_list_to_set (C := gset Z)) by apply NoDup_remove_dups.
  f_equal. apply set_eq. intros x.
  rewrite elem_of_list_to_set, elem_of_remove_dups, list_elem_of_difference.
  set_solver.
Qed.

Lemma length_difference_0 (this other : list Z) :
  length (difference this other) = 0%nat ↔ ∀ t, t ∈ this → t ∈ other.
Proof.
  rewrite length_zero_iff_nil. unfold difference. split.
  - intros Hnil t Hin. destruct (decide (t ∈ other)) as [|Hnot]; [done|].
    assert (t ∈ remove_dups (list_difference this other)) as Hd.
    { by apply elem_of_remove_dups, list_elem_of_difference. }
    rewrite Hnil in Hd. by apply elem_of_nil in Hd.
  - intros Hall.
    destruct (remove_dups (list_difference this other)) as [|t l] eqn:Hd; [done|].
    assert (t ∈ remove_dups (list_difference this other)) as Hin
      by (rewrite Hd; left).
    apply elem_of_remove_dups, list_elem_of_difference in Hin as [Hin Hnot].
    by apply Hall in Hin.
Qed.

(** C4: the expected set holds the hour-aligned timestamps from the start
    of the requested interval to its end, both included; the missing-hours
    metric is the cardinality of the set difference between the expected
    set and the timestamps of the series, and it is zero exactly when the
    series has every such hour. *)
Theorem missing_hours_spec (series : Series) :
  let expected : gset Z := list_to_set (date_range TIME_START TIME_END) in
  let actual : gset Z := list_to_set (series.*1) in
  (∀ t, t ∈ expected ↔ (TIME_START ≤ t ≤ TIME_END)%Z ∧ (t `mod` 3600 = 0)%Z)
  ∧ missing_hours series = size (expected ∖ actual)
  ∧ (missing_hours series = 0%nat
     ↔ ∀ t, (TIME_START ≤ t ≤ TIME_END)%Z → (t `mod` 3600 = 0)%Z →
            t ∈ series.*1).
Proof.
  intros expected actual. split_and!.
  - intros t. unfold expected. rewrite elem_of_list_to_set.
    apply elem_of_expected_index.
  - apply length_difference.
  - unfold missing_hours. rewrite length_difference_0. split.
    + intros Hall t Hrange Haligned. apply Hall, elem_of_expected_index. tauto.
    + intros Hall t Hin. apply elem_of_expected_index in Hin. apply Hall; tauto.
Qed.

(** Removing [k] distinct expected hours from a complete series leaves a
    count of exactly [k]. *)
Lemma missing_hours_removed (series : Series) (removed : gset Z) :
  removed ⊆ list_to_set (date_range TIME_START TIME_END) →
  (∀ t, t ∈ date_range TIME_START TIME_END →
        t ∈ series.*1 ↔ t ∉ removed) →
  missing_hours series = size removed.
Proof.
  intros Hsub Hseries. unfold missing_hours. rewrite length_difference.
  f_equal. apply set_eq. intros t.
  rewrite elem_of_difference, !elem_of_list_to_set. split.
  - intros [Hexp Hnot]. destruct (decide (t ∈ removed)); [done|].
    exfalso. by apply Hnot, Hseries.
  - intros Hrem. assert (t ∈ date_range TIME_START TIME_END) as Hexp.
    { apply Hsub in Hrem. by rewrite elem_of_list_to_set in Hrem. }
    split; [done|]. intros Hin. by apply (Hseries t Hexp) in Hin.
Qed.

(** ** Maximum and its timestamp *)

Lemma argmax_from_spec (best : Z * R) (s : Series) :
  let r := argmax_from best s in
  (∀ j t x, s !! j = Some (t, Some x) → x <= r.2)
  ∧ ((r = best)
     ∨ (best.2 < r.2 ∧ ∃ i, s !! i = Some (r.1, Some r.2)
        ∧ ∀ j t x, (j < i)%nat → s !! j = Some (t, Some x) → x < r.2)).
Proof.
  revert best. induction s as [|[t [x|]] tl IH]; intros best; simpl.
  - split; [|by left]. intros j t x Hj. by rewrite lookup_nil in Hj.
  - case_bool_decide as Hlt.
    + destruct (IH (t, x)) as [Hub [Heq|(Hgt & i & Hi & Hbefore)]].
      * rewrite Heq in *. simpl in *. split.
        { intros [|j] t' x' Hj; simplify_eq/=; [lra | by eapply Hub]. }
        right. split; [done|]. exists 0%nat. split; [done|]. intros; lia.
      * simpl in *. split.
        { intros [|j] t' x' Hj; simplify_eq/=; [lra | by eapply Hub]. }
        right. split; [lra|]. exists (S i). split; [done|].
        intros [|j] t' x' Hji Hj; simplify_eq/=; [lra|].
        eapply Hbefore; [|done]. lia.
    + destruct (IH best) as [Hub [Heq|(Hgt & i & Hi & Hbefore)]].
      * rewrite Heq in *. split; [|by left].
        intros [|j] t' x' Hj; simplify_eq/=; [lra | by eapply Hub].
      * split.
        { intros [|j] t' x' Hj; simplify_eq/=; [lra | by eapply Hub]. }
        right. split; [done|]. exists (S i). split; [done|].
        intros [|j] t' x' Hji Hj; simplify_eq/=; [lra|].
        eapply Hbefore; [|done]. lia.
  - destruct (IH best) as [Hub [Heq|(Hgt & i & Hi & Hbefore)]].
    + rewrite Heq in *. split; [|by left].
      intros [|j] t' x' Hj; simplify_eq/=. by eapply Hub.
    + split.
      { intros [|j] t' x' Hj; simplify_eq/=. by eapply Hub. }
      right. split; [done|]. exists (S i). split; [done|].
      intros [|j] t' x' Hji Hj; simplify_eq/=.
      eapply Hbefore; [|done]. lia.
Qed.

Lemma nanargmax_spec (s : Series) :
  (∃ i t m, nanargmax s = Some t ∧ first_maximum s i t m)
  ∨ (nanargmax s = None ∧ Forall (λ p, p.2 = None) s).
Proof.
  induction s as [|[t [x|]] tl IH]; simpl.
  - right. by split.
  - left. clear IH.
    destruct (argmax_from_spec (t, x) tl) as [Hub [Heq|(Hgt & i & Hi & Hbefore)]].
    + rewrite Heq in *. simpl in *. exists 0%nat, t, x. split; [done|].
      split_and!; [done| |intros; lia].
      intros [|j] t' x' Hj; simplify_eq/=; [lra | by eapply Hub].
    + simpl in *. exists (S i), (argmax_from (t, x) tl).1, (argmax_from (t, x) tl).2.
      split; [done|]. split_and!; [done| |].
      * intros [|j] t' x' Hj; simplify_eq/=; [lra | by eapply Hub].
      * intros [|j] t' x' Hji Hj; simplify_eq/=; [lra|].
        eapply Hbefore; [|done]. lia.
  - destruct IH as [(i & t' & m & Harg & Hi & Hub & Hbefore)|[Hnone Hall]].
    + left. exists (S i), t', m. split; [done|]. split_and!; [done| |].
      * intros [|j] t'' x' Hj; simplify_eq/=. by eapply Hub.
      * intros [|j] t'' x' Hji Hj; simplify_eq/=. eapply Hbefore; [|done]. lia.
    + right. split; [done|]. by constructor.
Qed.

Lemma nanmax_spec (s : Series) :
  (∃ m, nanmax s = Some m
        ∧ (∃ j t, s !! j = Some (t, Some m))
        ∧ (∀ j t x, s !! j = Some (t, Some x) → x <= m))
  ∨ (nanmax s = None ∧ Forall (λ p, p.2 = None) s).
Proof.
  induction s as [|[t [x|]] tl IH]; simpl.
  - right. by split.
  - left. destruct IH as [(m & -> & (j & t' & Hj) & Hub)|[-> Hall]].
    + exists (Rmax x m). split; [done|]. split.
      * unfold Rmax. destruct (Rle_dec x m).
        -- by exists (S j), t'.
        -- by exists 0%nat, t.
      * intros [|k] t'' x' Hk; simplify_eq/=; [apply Rmax_l|].
        etrans; [by eapply Hub | apply Rmax_r].
    + exists x. split; [done|]. split; [by exists 0%nat, t|].
      intros [|k] t'' x' Hk; simplify_eq/=; [lra|].
      apply list_elem_of_lookup_2 in Hk.
      rewrite Forall_forall in Hall. by apply Hall in Hk.
  - destruct IH as [(m & -> & (j & t' & Hj) & Hub)|[-> Hall]].
    + left. exists m. split; [done|]. split; [by exists (S j), t'|].
      intros [|k] t'' x' Hk; simplify_eq/=. by eapply Hub.
    + right. split; [done|]. by constructor.
Qed.

(** C5: when the series has a value that is not missing, the maximum
    metric reports the largest value of the series and the timestamp of the
    first row holding it: no row has a larger value and every earlier row
    has a smaller one.  So a unique maximum is reported with its own
    timestamp, and among tied maxima the first row is reported, which is
    the earliest timestamp when the series is in time order. *)
Theorem idxmax_first_maximum (env : Env) (s : Series) (m : R) :
  nanmax s = Some m →
  ∃ i t,
    idxmax env s = inr (Some t)
    ∧ first_maximum s i t m
    ∧ (∀ j t', s !! j = Some (t', Some m) → (i ≤ j)%nat)
    ∧ (∀ k tk, s !! k = Some (tk, Some m) →
         (∀ j t', s !! j = Some (t', Some m) → j = k) → i = k ∧ t = tk)
    ∧ (StronglySorted Z.le (s.*1) →
       ∀ j t', s !! j = Some (t', Some m) → (t ≤ t')%Z).
Proof.
  intros Hmax.
  destruct (nanmax_spec s) as [(m' & Hm' & (j0 & t0 & Hj0) & Hub')|[Hnone _]];
    [|congruence].
  assert (m' = m) as -> by congruence. clear Hm'.
  destruct (nanargmax_spec s) as [(i & t & mi & Harg & Hi & Hub & Hbefore)|[_ Hall]].
  - assert (mi = m) as ->.
    { apply Rle_antisym; [by eapply Hub' | by eapply Hub]. }
    assert (∀ j t', s !! j = Some (t', Some m) → (i ≤ j)%nat) as Hfirst.
    { intros j t' Hj. destruct (decide (i ≤ j)%nat) as [|Hlt]; [done|].
      assert (m < m); [|lra]. eapply Hbefore; [|done]. lia. }
    exists i, t. split_and!.
    + unfold idxmax. rewrite Harg. by destruct s.
    + done.
    + done.
    + intros k tk Hk Huniq. pose proof (Huniq _ _ Hi) as Hik.
      split; [done|]. rewrite Hik in Hi. congruence.
    + intros Hsorted j t' Hj. specialize (Hfirst j t' Hj).
      assert (s.*1 !! i = Some t) as Hti by (by rewrite list_lookup_fmap, Hi).
      assert (s.*1 !! j = Some t') as Htj by (by rewrite list_lookup_fmap, Hj).
      clear -Hsorted Hfirst Hti Htj.
      revert i j Hfirst Hti Htj.
      induction Hsorted as [|a l Hs IH Ha]; intros i j Hij Hti Htj;
        [by rewrite lookup_nil in Hti|].
      destruct i as [|i], j as [|j]; simplify_eq/=; try lia.
      * rewrite Forall_forall in Ha. by apply Ha, list_elem_of_lookup_2 with j.
      * apply (IH i j); [lia|done..].
  - rewrite Forall_forall in Hall.
    apply list_elem_of_lookup_2, Hall in Hj0. done.
Qed.

Lemma idxmax_first_maximum_witness :
  let env := {| AORC_ZARR_URI := "s3://noaa-nws-aorc-v1-1-1km";
                store := λ _, inr ∅; idxmax_all_na_raises := true |} in
  let s : Series :=
    [(0%Z, Some 1); (3600%Z, Some 5); (7200%Z, None); (10800%Z, Some 5)] in
  ∃ i t,
    idxmax env s = inr (Some t)
    ∧ first_maximum s i t 5
    ∧ (∀ j t', s !! j = Some (t', Some 5) → (i ≤ j)%nat)
    ∧ (∀ k tk, s !! k = Some (tk, Some 5) →
         (∀ j t', s !! j = Some (t', Some 5) → j = k) → i = k ∧ t = tk)
    ∧ (StronglySorted Z.le (s.*1) →
       ∀ j t', s !! j = Some (t', Some 5) → (t ≤ t')%Z).
Proof.
  intros env s. apply (idxmax_first_maximum env s 5). simpl.
  f_equal. unfold Rmax.
  repeat (destruct (Rle_dec _ _); try lra).
Defined.

(** The run above reports the first of the two tied rows. *)
Lemma idxmax_tie_example (env : Env) :
  idxmax env [(0%Z, Some 1); (3600%Z, Some 5); (7200%Z, None); (10800%Z, Some 5)]
  = inr (Some 3600%Z).
Proof. unfold idxmax. simpl. decide_reals. reflexivity. Qed.

(** ** Source connector *)

Lemma bind_emit {A : Type} (ev : event) (k : M A) :
  (emit ev;; k) = (ev :: k.1, k.2).
Proof. by destruct k. Qed.

Lemma bind_lift_inr {A B : Type} (x : A) (k : A → M B) :
  (lift (inr x) ≫= k) = k x.
Proof. unfold lift, mbind, M_bind. by destruct (k x). Qed.

Lemma bind_lift_inl {A B : Type} (e : exn) (k : A → M B) :
  (lift (inl e) ≫= k) = ([], inl e).
Proof. done. Qed.

Lemma bind_run {A B : Type} (tr : list event) (r : exn + A) (k : A → M B) :
  ((tr, r) ≫= k)
  = match r with
    | inl e => (tr, inl e)
    | inr x => (tr ++ (k x).1, (k x).2)
    end.
Proof. unfold mbind, M_bind. destruct r as [e|x]; [done|]. by destruct (k x). Qed.

(** C6: the first attempt uses consolidated metadata; when it fails the
    connector logs one warning, opens once more without consolidation, and
    only the failure of that second attempt is raised; when the first
    attempt succeeds there is no second one. *)
Theorem open_fallback (env : Env) (uri : string) :
  let tr := (open_aorc_dataset env uri).1 in
  let r := (open_aorc_dataset env uri).2 in
  let opening := LogInfo "Opening AORC dataset from %s" [AStr uri] in
  match store env true with
  | inr ds => tr = [opening; OpenZarr uri true]
  | inl exc =>
      tr = [opening; OpenZarr uri true;
            LogWarning
              "Consolidated open failed (%s); retrying without consolidation"
              [AExn exc];
            OpenZarr uri false]
      ∧ (∀ e, store env false = inl e → r = inl e)
      ∧ (∀ e, r = inl e →
           store env false = inl e
           ∨ e = KeyError "Variable 'apcp' not found in dataset.")
  end.
Proof.
  unfold open_aorc_dataset, open_zarr, try_except.
  rewrite bind_emit. simpl.
  destruct (store env true) as [exc|ds]; simpl.
  - destruct (store env false) as [e2|ds]; simpl.
    + split_and!; [done|by intros ? [= ->]|]. intros e [= ->]. by left.
    + case_bool_decide; simpl.
      * split_and!; [done..|]. intros e [= <-]. by right.
      * by split_and!.
  - by case_bool_decide.
Qed.

(** C7: once an attempt has opened the store, a dataset without ['apcp']
    makes the connector raise the missing-variable [KeyError] right after
    that attempt, with no further attempt; a dataset with the variable is
    returned as opened. *)
Theorem open_requires_apcp (env : Env) (uri : string) (ds : Dataset) :
  opened env = inr ds →
  (∃ consolidated,
     last (open_aorc_dataset env uri).1 = Some (OpenZarr uri consolidated)
     ∧ store env consolidated = inr ds)
  ∧ (ds !! "apcp" = None →
     (open_aorc_dataset env uri).2
     = inl (KeyError "Variable 'apcp' not found in dataset."))
  ∧ (is_Some (ds !! "apcp") → (open_aorc_dataset env uri).2 = inr ds).
Proof.
  unfold opened, open_aorc_dataset, open_zarr, try_except.
  rewrite bind_emit. simpl.
  destruct (store env true) as [exc|ds'] eqn:Htrue; simpl.
  - intros Hfalse. rewrite Hfalse. simpl. split_and!.
    + exists false. by case_bool_decide.
    + intros Hnone. by rewrite bool_decide_eq_true_2.
    + intros [apcp Hsome]. rewrite bool_decide_eq_false_2; [done|congruence].
  - intros [= ->]. split_and!.
    + exists true. by case_bool_decide.
    + intros Hnone. by rewrite bool_decide_eq_true_2.
    + intros [apcp Hsome]. rewrite bool_decide_eq_false_2; [done|congruence].
Qed.

Lemma open_requires_apcp_witness :
  let env := {| AORC_ZARR_URI := "s3://noaa-nws-aorc-v1-1-1km";
                store := λ consolidated : bool,
                  if consolidated then inl (OtherException "no .zmetadata")
                  else inr (∅ : Dataset);
                idxmax_all_na_raises := false |} in
  let uri := "s3://noaa-nws-aorc-v1-1-1km" in
  let ds : Dataset := ∅ in
  (∃ consolidated,
     last (open_aorc_dataset env uri).1 = Some (OpenZarr uri consolidated)
     ∧ store env consolidated = inr ds)
  ∧ (ds !! "apcp" = None →
     (open_aorc_dataset env uri).2
     = inl (KeyError "Variable 'apcp' not found in dataset."))
  ∧ (is_Some (ds !! "apcp") → (open_aorc_dataset env uri).2 = inr ds).
Proof.
  intros env uri ds. apply (open_requires_apcp env uri ds). reflexivity.
Defined.

(** ** The pipeline as a whole *)

Lemma open_result (env : Env) (uri : string) :
  (open_aorc_dataset env uri).2
  = match opened env with
    | inl e => inl e
    | inr ds =>
        if bool_decide (ds !! "apcp" = None)
        then inl (KeyError "Variable 'apcp' not found in dataset.")
        else inr ds
    end.
Proof.
  unfold opened, open_aorc_dataset, open_zarr, try_except.
  rewrite bind_emit. simpl.
  destruct (store env true) as [exc|ds]; simpl.
  - destruct (store env false) as [e2|ds]; simpl; [done|]. by case_bool_decide.
  - by case_bool_decide.
Qed.

Lemma open_writes_nothing (env : Env) (uri : string) :
  written (open_aorc_dataset env uri).1 = [].
Proof.
  unfold open_aorc_dataset, open_zarr, try_except.
  rewrite bind_emit. simpl.
  destruct (store env true) as [exc|ds]; simpl.
  - destruct (store env false) as [e2|ds]; simpl; [done|]. by case_bool_decide.
  - by case_bool_decide.
Qed.


Lemma select_subset_keeps_coordinate (apcp subset : DataArray)
    (lat_name lon_name : string) :
  select_subset apcp lat_name lon_name = inr subset →
  ∃ lats, coords subset !! lat_name = Some lats.
Proof.
  unfold select_subset, coordinate, sel.
  destruct (coords apcp !! lat_name) as [lat|] eqn:Hlat; simpl; [|done].
  destruct (_get_slice LAT_MIN LAT_MAX lat) as [?|lat_slice]; simpl; [done|].
  destruct (coords apcp !! lon_name) as [lon|] eqn:Hlon; simpl; [|done].
  destruct (_get_slice LON_MIN LON_MAX lon) as [?|lon_slice]; simpl; [done|].
  destruct (time_slice_locs _ _) as [?|tij]; simpl; [done|].
  unfold coordinate. rewrite Hlat. simpl.
  destruct (slice_locs Rle lat lat_slice) as [?|yij]; simpl; [done|].
  unfold coordinate. rewrite Hlon. simpl.
  destruct (slice_locs Rle lon lon_slice) as [?|xij]; simpl; [done|].
  intros [= <-]. simpl.
  apply (lookup_alter_is_Some (M := gmap string)).
  apply (lookup_alter_is_Some (M := gmap string)). by rewrite Hlat.
Qed.

Lemma main_outcome (env : Env) : outcome env (main env).
Proof.
  unfold main. rewrite bind_emit.
  destruct (open_aorc_dataset env (AORC_ZARR_URI env)) as [tr0 [e|ds]] eqn:Hopen.
  { rewrite bind_run. simpl. by apply open_failed. }
  rewrite bind_run.
  assert (∃ apcp, ds !! "apcp" = Some apcp) as [apcp Hapcp].
  { pose proof (open_result env (AORC_ZARR_URI env)) as Hr.
    rewrite Hopen in Hr. simpl in Hr.
    destruct (opened env) as [|ds']; [done|].
    case_bool_decide as Hnone; [done|]. injection Hr as Heq. subst ds'.
    destruct (ds !! "apcp") as [apcp|]; [by exists apcp | done]. }
  rewrite Hapcp. cbn [from_option]. rewrite bind_lift_inr.
  destruct (resolve_names apcp) as [e|[lat_name lon_name]] eqn:Hnames.
  { rewrite bind_lift_inl. cbn [fst snd]. rewrite app_nil_r.
    by eapply names_failed. }
  rewrite bind_lift_inr, bind_emit.
  destruct (select_subset apcp lat_name lon_name) as [e|subset] eqn:Hsubset.
  { rewrite bind_lift_inl. cbn [fst snd]. by eapply subset_failed. }
  rewrite bind_lift_inr.
  case_bool_decide as Hempty.
  { cbn [raise fst snd]. eapply subset_empty; [done..|].
    by destruct (time subset). }
  destruct (select_subset_keeps_coordinate _ _ _ _ Hsubset) as [lats Hlats].
  destruct (area_mean subset lat_name) as [e|series] eqn:Hmean.
  { unfold area_mean, coordinate in Hmean. by rewrite Hlats in Hmean. }
  rewrite bind_lift_inr, bind_emit.
  assert (time subset ≠ []) as Hne by (by intros Hnil; rewrite Hnil in Hempty).
  destruct (idxmax env series) as [e|max_timestamp] eqn:Hidx.
  { rewrite bind_lift_inl. cbn [fst snd]. by eapply qa_failed. }
  rewrite bind_lift_inr, !bind_emit. cbn [emit fst snd].
  by eapply completed.
Qed.

Lemma opened_open (env : Env) (ds : Dataset) (apcp : DataArray) :
  opened env = inr ds → ds !! "apcp" = Some apcp →
  ∃ tr0, open_aorc_dataset env (AORC_ZARR_URI env) = (tr0, inr ds).
Proof.
  intros Hopened Hapcp. pose proof (open_result env (AORC_ZARR_URI env)) as Hr.
  rewrite Hopened, bool_decide_eq_false_2 in Hr by congruence.
  destruct (open_aorc_dataset env (AORC_ZARR_URI env)) as [tr0 r].
  exists tr0. simpl in Hr. by rewrite Hr.
Qed.

Lemma written_app (tr1 tr2 : list event) :
  written (tr1 ++ tr2) = written tr1 ++ written tr2.
Proof. apply List.filter_app. Qed.

Lemma csv_written_app (tr1 tr2 : list event) :
  csv_written (tr1 ++ tr2) = csv_written tr1 ++ csv_written tr2.
Proof. apply omap_app. Qed.

Lemma open_writes_no_csv (env : Env) (uri : string) :
  csv_written (open_aorc_dataset env uri).1 = [].
Proof.
  unfold open_aorc_dataset, open_zarr, try_except.
  rewrite bind_emit. simpl.
  destruct (store env true) as [exc|ds]; simpl.
  - destruct (store env false) as [e2|ds]; simpl; [done|]. by case_bool_decide.
  - by case_bool_decide.
Qed.

(** A run that raises has written no file. *)
Lemma main_error_writes_nothing (env : Env) (e : exn) :
  (main env).2 = inl e → written (main env).1 = [].
Proof.
  destruct (main_outcome env) as
    [tr0 ? Hopen|tr0 ??? Hopen|tr0 ????? Hopen|tr0 ????? Hopen
    |tr0 ??????? Hopen|tr0 ??????? Hopen]; cbn [fst snd]; intros Herr;
    try done;
    pose proof (open_writes_nothing env (AORC_ZARR_URI env)) as Hw;
    rewrite Hopen in Hw; cbn [fst] in Hw;
    change (written (Mkdir OUTPUT_DIR :: ?tr)) with (written tr);
    rewrite ?written_app, Hw; done.
Qed.

(** Two results of the same stage are the same result. *)
Ltac same_stage :=
  repeat match goal with
    | H1 : ?x = _, H2 : ?x = _ |- _ => rewrite H1 in H2; simplify_eq
    end.

Lemma main_names_failed (env : Env) (ds : Dataset) (apcp : DataArray) (e : exn) :
  opened env = inr ds → ds !! "apcp" = Some apcp →
  resolve_names apcp = inl e →
  (main env).2 = inl e.
Proof.
  intros Hopened Hapcp Hnames.
  destruct (opened_open env ds apcp Hopened Hapcp) as [tr Hopen].
  destruct (main_outcome env); same_stage; done.
Qed.

Lemma main_subset_empty (env : Env) (ds : Dataset) (apcp subset : DataArray)
    (lat_name lon_name : string) :
  opened env = inr ds → ds !! "apcp" = Some apcp →
  resolve_names apcp = inr (lat_name, lon_name) →
  select_subset apcp lat_name lon_name = inr subset →
  time subset = [] →
  (main env).2 = inl (ValueError "No time steps found in requested subset.").
Proof.
  intros Hopened Hapcp Hnames Hsubset Hempty.
  destruct (opened_open env ds apcp Hopened Hapcp) as [tr Hopen].
  destruct (main_outcome env); same_stage; done.
Qed.

Lemma main_completed (env : Env) (ds : Dataset) (apcp subset : DataArray)
    (lat_name lon_name : string) (series : Series) (max_timestamp : option Z) :
  opened env = inr ds → ds !! "apcp" = Some apcp →
  resolve_names apcp = inr (lat_name, lon_name) →
  select_subset apcp lat_name lon_name = inr subset →
  time subset ≠ [] →
  area_mean subset lat_name = inr series →
  idxmax env series = inr max_timestamp →
  main env
  = (Mkdir OUTPUT_DIR :: (open_aorc_dataset env (AORC_ZARR_URI env)).1
       ++ completed_events subset series max_timestamp, inr tt).
Proof.
  intros Hopened Hapcp Hnames Hsubset Hne Hmean Hidx.
  destruct (opened_open env ds apcp Hopened Hapcp) as [tr Hopen].
  rewrite Hopen. cbn [fst].
  destruct (main_outcome env); same_stage; done.
Qed.

Lemma main_qa_failed (env : Env) (ds : Dataset) (apcp subset : DataArray)
    (lat_name lon_name : string) (series : Series) (e : exn) :
  opened env = inr ds → ds !! "apcp" = Some apcp →
  resolve_names apcp = inr (lat_name, lon_name) →
  select_subset apcp lat_name lon_name = inr subset →
  time subset ≠ [] →
  area_mean subset lat_name = inr series →
  idxmax env series = inl e →
  (main env).2 = inl e.
Proof.
  intros Hopened Hapcp Hnames Hsubset Hne Hmean Hidx.
  destruct (opened_open env ds apcp Hopened Hapcp) as [tr Hopen].
  destruct (main_outcome env); same_stage; done.
Qed.

(** A subset that was selected has the time steps of the requested
    interval, and the time axis it was selected from is ascending. *)
Lemma select_subset_time (apcp subset : DataArray) (lat_name lon_name : string) :
  select_subset apcp lat_name lon_name = inr subset →
  is_monotonic_increasing Z.le (time apcp) = true
  ∧ time subset
    = filter (λ t, (TIME_START ≤ t)%Z ∧ (t ≤ TIME_END)%Z) (time apcp).
Proof.
  unfold select_subset, sel.
  destruct (coordinate apcp lat_name) as [?|lat]; simpl; [done|].
  destruct (_get_slice LAT_MIN LAT_MAX lat) as [?|lat_slice]; simpl; [done|].
  destruct (coordinate apcp lon_name) as [?|lon]; simpl; [done|].
  destruct (_get_slice LON_MIN LON_MAX lon) as [?|lon_slice]; simpl; [done|].
  unfold time_slice_locs.
  destruct (is_monotonic_increasing Z.le (time apcp)) eqn:Hinc; simpl; [|done].
  pose proof (sel_labels_increasing Z.le (time apcp) TIME_START TIME_END Hinc)
    as Hsel.
  unfold sel_labels in Hsel.
  destruct (slice_locs Z.le (time apcp) _) as [?|tij]; simpl;
    [discriminate Hsel|].
  destruct (slice_locs Rle lat lat_slice) as [?|yij]; simpl; [done|].
  destruct (slice_locs Rle lon lon_slice) as [?|xij]; simpl; [done|].
  intros [= <-]. simpl. split; [done|]. by injection Hsel.
Qed.

(** With a pandas that returns NaN for the maximum of an all-NA series,
    QA cannot fail on a series that has rows. *)
Lemma idxmax_total (env : Env) (s : Series) :
  idxmax_all_na_raises env = false → s ≠ [] → ∃ t, idxmax env s = inr t.
Proof.
  intros Hna Hne. unfold idxmax. destruct s as [|r s]; [done|].
  destruct (nanargmax (r :: s)); [by eexists|]. rewrite Hna. by eexists.
Qed.

Lemma main_completes (env : Env) (ds : Dataset) (apcp subset : DataArray)
    (lat_name lon_name : string) (series : Series) :
  opened env = inr ds → ds !! "apcp" = Some apcp →
  resolve_names apcp = inr (lat_name, lon_name) →
  select_subset apcp lat_name lon_name = inr subset →
  time subset ≠ [] →
  area_mean subset lat_name = inr series →
  series ≠ [] →
  idxmax_all_na_raises env = false →
  (main env).2 = inr tt.
Proof.
  intros Hopened Hapcp Hnames Hsubset Hne Hmean Hrows Hna.
  destruct (idxmax_total env series Hna Hrows) as [t Ht].
  by erewrite main_completed.
Qed.

(** *** With the calls that can raise *)

Ltac run_binds :=
  repeat first
    [rewrite bind_emit | rewrite bind_lift_inr | rewrite bind_lift_inl];
  cbn [emit fst snd].

Lemma main_io_outcome (io : IO) (env : Env) : outcome_io io env (main_io io env).
Proof.
  unfold main_io.
  destruct (io_mkdir io) as [e|[]] eqn:Hmkdir.
  { rewrite bind_lift_inl. by apply io_mkdir_failed. }
  rewrite bind_lift_inr, bind_emit.
  destruct (open_aorc_dataset env (AORC_ZARR_URI env)) as [tr0 [e|ds]] eqn:Hopen.
  { rewrite bind_run. simpl. by apply io_open_failed. }
  rewrite bind_run.
  assert (∃ apcp, ds !! "apcp" = Some apcp) as [apcp Hapcp].
  { pose proof (open_result env (AORC_ZARR_URI env)) as Hr.
    rewrite Hopen in Hr. simpl in Hr.
    destruct (opened env) as [|ds']; [done|].
    case_bool_decide as Hnone; [done|]. injection Hr as Heq. subst ds'.
    destruct (ds !! "apcp") as [apcp|]; [by exists apcp | done]. }
  rewrite Hapcp. cbn [from_option]. rewrite bind_lift_inr.
  destruct (resolve_names apcp) as [e|[lat_name lon_name]] eqn:Hnames.
  { rewrite bind_lift_inl. cbn [fst snd]. rewrite app_nil_r.
    by eapply io_names_failed. }
  rewrite bind_lift_inr, bind_emit.
  destruct (select_subset apcp lat_name lon_name) as [e|subset] eqn:Hsubset.
  { rewrite bind_lift_inl. cbn [fst snd]. by eapply io_subset_failed. }
  rewrite bind_lift_inr.
  case_bool_decide as Hempty.
  { cbn [raise fst snd]. eapply io_subset_empty; [done..|].
    by destruct (time subset). }
  destruct (select_subset_keeps_coordinate _ _ _ _ Hsubset) as [lats Hlats].
  destruct (area_mean subset lat_name) as [e|series] eqn:Hmean.
  { unfold area_mean, coordinate in Hmean. by rewrite Hlats in Hmean. }
  rewrite bind_lift_inr, bind_emit.
  assert (time subset ≠ []) as Hne by (by intros Hnil; rewrite Hnil in Hempty).
  destruct (io_compute io) as [e|[]] eqn:Hcompute.
  { rewrite bind_lift_inl. cbn [fst snd]. by eapply io_compute_failed. }
  rewrite bind_lift_inr.
  destruct (idxmax env series) as [e|max_timestamp] eqn:Hidx.
  { rewrite bind_lift_inl. cbn [fst snd]. by eapply io_qa_failed. }
  rewrite bind_lift_inr.
  destruct (io_to_netcdf io) as [e|[]] eqn:Hnetcdf.
  { run_binds. by eapply io_netcdf_failed. }
  destruct (io_to_csv io) as [e|[]] eqn:Hcsv.
  { run_binds. by eapply io_csv_failed. }
  run_binds.
  by eapply io_completed.
Qed.

Lemma main_io_ok (env : Env) : main_io io_ok env = main env.
Proof.
  destruct (main_io_outcome io_ok env); destruct (main_outcome env);
    same_stage; done.
Qed.

Lemma written_run (tr0 evs : list event) :
  written tr0 = [] → written (Mkdir OUTPUT_DIR :: tr0 ++ evs) = written evs.
Proof.
  intros Hw. change (written (Mkdir OUTPUT_DIR :: ?tr)) with (written tr).
  by rewrite written_app, Hw.
Qed.

Lemma open_trace_writes_nothing (env : Env) (tr0 : list event)
    (r : exn + Dataset) :
  open_aorc_dataset env (AORC_ZARR_URI env) = (tr0, r) → written tr0 = [].
Proof.
  intros Hopen. pose proof (open_writes_nothing env (AORC_ZARR_URI env)) as Hw.
  by rewrite Hopen in Hw.
Qed.

Lemma open_trace_opened (env : Env) (tr0 : list event) (ds : Dataset) :
  open_aorc_dataset env (AORC_ZARR_URI env) = (tr0, inr ds) →
  opened env = inr ds.
Proof.
  intros Hopen. pose proof (open_result env (AORC_ZARR_URI env)) as Hr.
  rewrite Hopen in Hr. cbn [snd] in Hr.
  destruct (opened env) as [|ds']; [done|].
  case_bool_decide; [done|]. by injection Hr as ->.
Qed.

(** A run that gets as far as the tabular write and fails there has
    written the gridded file. *)
Lemma main_io_csv_fails (io : IO) (env : Env) (ds : Dataset)
    (apcp subset : DataArray) (lat_name lon_name : string) (series : Series)
    (e : exn) :
  io_mkdir io = inr tt →
  opened env = inr ds → ds !! "apcp" = Some apcp →
  resolve_names apcp = inr (lat_name, lon_name) →
  select_subset apcp lat_name lon_name = inr subset →
  time subset ≠ [] →
  area_mean subset lat_name = inr series →
  series ≠ [] →
  io_compute io = inr tt →
  idxmax_all_na_raises env = false →
  io_to_netcdf io = inr tt →
  io_to_csv io = inl e →
  (main_io io env).2 = inl e
  ∧ written (main_io io env).1 = [ToNetCDF SUBSET_NETCDF "apcp" subset].
Proof.
  intros Hmkdir Hopened Hapcp Hnames Hsubset Hne Hmean Hrows Hcompute Hna
    Hnetcdf Hcsv.
  destruct (idxmax_total env series Hna Hrows) as [t Ht].
  destruct (opened_open env ds apcp Hopened Hapcp) as [tr Hopen].
  pose proof (open_trace_writes_nothing _ _ _ Hopen) as Hw.
  destruct (main_io_outcome io env); same_stage; try done.
  cbn [fst snd]. split; [done|]. by rewrite (written_run _ _ Hw).
Qed.

(** ** Coordinate names *)

(** C8: the latitude coordinate is looked up as ["latitude"], then as
    ["lat"], the longitude coordinate as ["longitude"], then as ["lon"],
    the long spelling winning when both are present; when both spellings of
    either are absent the resolution raises the coordinate [KeyError], and
    so does the pipeline, before anything is written. *)
Theorem resolve_names_spec (apcp : DataArray) :
  let has := λ name, is_Some (coords apcp !! name) in
  let pick := λ long short name,
    (has long ∧ name = long) ∨ (¬ has long ∧ has short ∧ name = short) in
  let missing :=
    (¬ has "latitude" ∧ ¬ has "lat") ∨ (¬ has "longitude" ∧ ¬ has "lon") in
  let not_found :=
    KeyError "Could not find latitude/longitude coordinates in dataset" in
  match resolve_names apcp with
  | inr (lat_name, lon_name) =>
      ¬ missing
      ∧ pick "latitude" "lat" lat_name ∧ pick "longitude" "lon" lon_name
  | inl e => missing ∧ e = not_found
  end
  ∧ (missing →
     ∀ env ds, opened env = inr ds → ds !! "apcp" = Some apcp →
       (main env).2 = inl not_found ∧ written (main env).1 = []).
Proof.
  intros has pick missing not_found.
  assert (match resolve_names apcp with
          | inr (lat_name, lon_name) =>
              ¬ missing
              ∧ pick "latitude" "lat" lat_name ∧ pick "longitude" "lon" lon_name
          | inl e => missing ∧ e = not_found
          end) as Hspec.
  { unfold resolve_names, missing, pick, has.
    destruct (coords apcp !! "latitude") as [lat|] eqn:Hlat;
      destruct (coords apcp !! "longitude") as [lon|] eqn:Hlon;
      destruct (coords apcp !! "lat") as [lat'|] eqn:Hlat';
      destruct (coords apcp !! "lon") as [lon'|] eqn:Hlon';
      repeat (case_bool_decide; simpl in * );
      rewrite ?Hlat, ?Hlon, ?Hlat', ?Hlon' in *;
      rewrite ?is_Some_alt in *; simplify_eq/=;
      try (exfalso; tauto); split_and?; tauto. }
  split; [done|].
  intros Hmissing env ds Hopened Hapcp.
  destruct (resolve_names apcp) as [e|[lat_name lon_name]] eqn:Hnames;
    [|tauto].
  destruct Hspec as [_ ->].
  assert ((main env).2 = inl not_found) as Hr by by eapply main_names_failed.
  split; [done|]. by eapply main_error_writes_nothing.
Qed.

(** ** Running the pipeline on a synthetic store *)

Lemma resolve_names_grid (times : list Z) (lats lons : list R) cells :
  resolve_names
    {| coords := {[ "latitude" := lats; "longitude" := lons ]};
       time := times; values := cells |}
  = inr ("latitude", "longitude").
Proof.
  unfold resolve_names. simpl.
  rewrite lookup_insert_eq, lookup_insert_ne, lookup_singleton_eq by done.
  rewrite (bool_decide_eq_true_2 (is_Some (Some lats))) by eauto.
  rewrite (bool_decide_eq_true_2 (is_Some (Some lons))) by eauto.
  by rewrite !bool_decide_eq_false_2.
Qed.

Lemma select_subset_grid (times : list Z) (lats lons : list R) cells
    (lat_slice lon_slice : slice R) (tij yij xij : nat * nat) :
  _get_slice LAT_MIN LAT_MAX lats = inr lat_slice →
  _get_slice LON_MIN LON_MAX lons = inr lon_slice →
  time_slice_locs times (Slice TIME_START TIME_END) = inr tij →
  slice_locs Rle lats lat_slice = inr yij →
  slice_locs Rle lons lon_slice = inr xij →
  select_subset
    {| coords := {[ "latitude" := lats; "longitude" := lons ]};
       time := times; values := cells |}
    "latitude" "longitude"
  = inr {| coords := {[ "latitude" := positional lats yij;
                        "longitude" := positional lons xij ]};
           time := positional times tij;
           values :=
             (λ grid, (λ row, positional row xij) <$> positional grid yij)
               <$> positional cells tij |}.
Proof.
  intros Hlat Hlon Ht Hy Hx.
  unfold select_subset, sel, coordinate. simpl.
  rewrite lookup_insert_eq, lookup_insert_ne, lookup_singleton_eq by done.
  simpl. rewrite Hlat. simpl. rewrite Hlon. simpl. rewrite Ht. simpl.
  rewrite Hy. simpl. rewrite Hx. simpl.
  reflexivity.
Qed.

(** ** Stores the selection accepts *)

Lemma select_subset_shape (apcp subset : DataArray) (lat_name lon_name : string) :
  select_subset apcp lat_name lon_name = inr subset →
  ∃ lats lons lat_slice lon_slice tij yij xij,
    coords apcp !! lat_name = Some lats
    ∧ coords apcp !! lon_name = Some lons
    ∧ _get_slice LAT_MIN LAT_MAX lats = inr lat_slice
    ∧ _get_slice LON_MIN LON_MAX lons = inr lon_slice
    ∧ time_slice_locs (time apcp) (Slice TIME_START TIME_END) = inr tij
    ∧ slice_locs Rle lats lat_slice = inr yij
    ∧ slice_locs Rle lons lon_slice = inr xij
    ∧ subset = isel apcp lat_name lon_name tij yij xij.
Proof.
  unfold select_subset, sel, coordinate.
  destruct (coords apcp !! lat_name) as [lats|]; simpl; [|done].
  destruct (_get_slice LAT_MIN LAT_MAX lats) as [?|lat_slice] eqn:Hlat;
    simpl; [done|].
  destruct (coords apcp !! lon_name) as [lons|]; simpl; [|done].
  destruct (_get_slice LON_MIN LON_MAX lons) as [?|lon_slice] eqn:Hlon;
    simpl; [done|].
  destruct (time_slice_locs _ _) as [?|tij] eqn:Ht; simpl; [done|].
  destruct (slice_locs Rle lats lat_slice) as [?|yij] eqn:Hy; simpl; [done|].
  destruct (slice_locs Rle lons lon_slice) as [?|xij] eqn:Hx; simpl; [done|].
  intros [= <-]. by exists lats, lons, lat_slice, lon_slice, tij, yij, xij.
Qed.

(** The positional range [_get_slice]'s slice selects on a monotonic
    array. *)
Lemma get_slice_locs (coordinate : list R) (min_value max_value : R)
    (s : slice R) (ij : nat * nat) :
  is_monotonic_increasing Rle coordinate = true
  ∨ is_monotonic_decreasing Rle coordinate = true →
  _get_slice min_value max_value coordinate = inr s →
  slice_locs Rle coordinate s = inr ij →
  positional coordinate ij
  = filter (λ y, min_value <= y ∧ y <= max_value) coordinate.
Proof.
  intros Hmono Hs Hij.
  assert (coordinate ≠ []) as Hne by (by intros ->).
  pose proof (select_coordinate_filter coordinate min_value max_value Hne Hmono)
    as Hsel.
  unfold select_coordinate, sel_labels in Hsel.
  rewrite Hs in Hsel. simpl in Hsel. rewrite Hij in Hsel. by injection Hsel.
Qed.

Lemma get_slice_total (coordinate : list R) (min_value max_value : R) :
  coordinate ≠ [] →
  is_monotonic_increasing Rle coordinate = true
  ∨ is_monotonic_decreasing Rle coordinate = true →
  ∃ s ij, _get_slice min_value max_value coordinate = inr s
          ∧ slice_locs Rle coordinate s = inr ij.
Proof.
  intros Hne Hmono.
  pose proof (select_coordinate_filter coordinate min_value max_value Hne Hmono)
    as Hsel.
  unfold select_coordinate, sel_labels in Hsel.
  destruct (_get_slice min_value max_value coordinate) as [?|s]; [done|].
  simpl in Hsel.
  destruct (slice_locs Rle coordinate s) as [?|ij] eqn:Hij; [done|].
  by exists s, ij.
Qed.

Lemma time_slice_total (idx : list Z) (lo hi : Z) :
  is_monotonic_increasing Z.le idx = true →
  ∃ tij, time_slice_locs idx (Slice lo hi) = inr tij
         ∧ positional idx tij = filter (λ t, (lo ≤ t)%Z ∧ (t ≤ hi)%Z) idx.
Proof.
  intros Hinc. unfold time_slice_locs. rewrite Hinc.
  pose proof (sel_labels_increasing Z.le idx lo hi Hinc) as Hsel.
  unfold sel_labels in Hsel.
  destruct (slice_locs Z.le idx _) as [?|tij] eqn:Hij; [done|].
  exists tij. split; [done|]. by injection Hsel.
Qed.

Lemma select_subset_succeeds (apcp : DataArray) (lat_name lon_name : string)
    (lats lons : list R) :
  coords apcp !! lat_name = Some lats →
  coords apcp !! lon_name = Some lons →
  lats ≠ [] → lons ≠ [] →
  is_monotonic_increasing Rle lats = true
  ∨ is_monotonic_decreasing Rle lats = true →
  is_monotonic_increasing Rle lons = true
  ∨ is_monotonic_decreasing Rle lons = true →
  is_monotonic_increasing Z.le (time apcp) = true →
  ∃ subset, select_subset apcp lat_name lon_name = inr subset.
Proof.
  intros Hlat Hlon Hlats Hlons Hmlat Hmlon Htime.
  destruct (get_slice_total lats LAT_MIN LAT_MAX Hlats Hmlat)
    as (lat_slice & yij & Hsy & Hy).
  destruct (get_slice_total lons LON_MIN LON_MAX Hlons Hmlon)
    as (lon_slice & xij & Hsx & Hx).
  destruct (time_slice_total (time apcp) TIME_START TIME_END Htime)
    as (tij & Ht & _).
  exists (isel apcp lat_name lon_name tij yij xij).
  unfold select_subset, sel, coordinate.
  rewrite Hlat, Hlon. simpl. rewrite Hsy. simpl. rewrite Hsx. simpl.
  rewrite Ht. simpl. rewrite Hy. simpl. by rewrite Hx.
Qed.

(** ** The empty-subset guard *)

(** C3 (amended): once the output directory exists, on a store the
    selection accepts, that is with an ascending time axis and with
    latitude and longitude arrays that are not empty and each stored
    ascending or descending, when no time step lies in the requested
    interval the pipeline raises the empty-subset [ValueError] and has
    written no file.  The guard reads the time dimension only. *)
Theorem empty_time_selection_is_fatal (io : IO) (env : Env) (ds : Dataset)
    (apcp : DataArray) (lat_name lon_name : string) (lats lons : list R) :
  io_mkdir io = inr tt →
  opened env = inr ds → ds !! "apcp" = Some apcp →
  resolve_names apcp = inr (lat_name, lon_name) →
  coords apcp !! lat_name = Some lats →
  coords apcp !! lon_name = Some lons →
  lats ≠ [] → lons ≠ [] →
  is_monotonic_increasing Rle lats = true
  ∨ is_monotonic_decreasing Rle lats = true →
  is_monotonic_increasing Rle lons = true
  ∨ is_monotonic_decreasing Rle lons = true →
  is_monotonic_increasing Z.le (time apcp) = true →
  (∀ t, t ∈ time apcp → ¬ (TIME_START ≤ t ≤ TIME_END)%Z) →
  (main_io io env).2
  = inl (ValueError "No time steps found in requested subset.")
  ∧ written (main_io io env).1 = [].
Proof.
  intros Hmkdir Hopened Hapcp Hnames Hlat Hlon Hlats Hlons Hmlat Hmlon Htime
    Hout.
  destruct (select_subset_succeeds apcp lat_name lon_name lats lons)
    as [subset Hsubset]; [done..|].
  assert (time subset = []) as Hempty.
  { destruct (select_subset_time _ _ _ _ Hsubset) as [_ ->].
    clear -Hout. induction (time apcp) as [|t ts IH]; [done|].
    rewrite filter_cons_False.
    - apply IH. intros t' Hin. apply Hout. by right.
    - intros [??]. apply (Hout t); [left | done]. }
  destruct (opened_open env ds apcp Hopened Hapcp) as [tr Hopen].
  pose proof (open_trace_writes_nothing _ _ _ Hopen) as Hw.
  destruct (main_io_outcome io env); same_stage; try done.
  cbn [fst snd]. split; [done|]. by rewrite (written_run _ _ Hw).
Qed.

Lemma empty_time_selection_is_fatal_witness :
  let env := fixed_env (grid_dataset [0%Z] [37.7] [-89.2] [[[Some 1]]]) false in
  (main_io io_ok env).2
  = inl (ValueError "No time steps found in requested subset.")
  ∧ written (main_io io_ok env).1 = [].
Proof.
  intros env.
  apply (empty_time_selection_is_fatal io_ok env
           (grid_dataset [0%Z] [37.7] [-89.2] [[[Some 1]]])
           {| coords := {[ "latitude" := [37.7]; "longitude" := [-89.2] ]};
              time := [0%Z]; values := [[[Some 1]]] |}
           "latitude" "longitude" [37.7] [-89.2]).
  - reflexivity.
  - reflexivity.
  - apply lookup_singleton_eq.
  - apply resolve_names_grid.
  - reflexivity.
  - reflexivity.
  - discriminate.
  - discriminate.
  - by left.
  - by left.
  - reflexivity.
  - intros t Hin. apply list_elem_of_singleton in Hin as ->.
    unfold TIME_START. lia.
Defined.

Lemma not_overlaps_above (lo hi c0 cl : R) :
  hi < c0 → hi < cl → ¬ overlaps_coverage lo hi [c0; cl].
Proof.
  intros H0 Hl (x & y & [= <-] & [= <-] & Hmin & _).
  unfold Rmin in Hmin. destruct (Rle_dec c0 cl); lra.
Qed.

Lemma not_overlaps_below (lo hi c0 cl : R) :
  c0 < lo → cl < lo → ¬ overlaps_coverage lo hi [c0; cl].
Proof.
  intros H0 Hl (x & y & [= <-] & [= <-] & _ & Hmax).
  unfold Rmax in Hmax. destruct (Rle_dec c0 cl); lra.
Qed.

(** C3 as stated fails: the store below spans latitudes 40 to 41 and
    longitudes -100 to -99, so the requested box lies entirely outside it,
    and it has a time step inside the requested interval.  The subset keeps
    that time step with no cell, the guard passes and the run goes on to
    QA: with a pandas that returns NaN for the maximum of an all-NA series
    it completes and writes both files, with one that raises it stops
    there with a different error. *)
Lemma outside_box_counterexample :
  let cells := [[[Some 1; Some 2]; [Some 3; Some 4]]] in
  let env := fixed_env (grid_dataset [TIME_START] [40; 41] [-100; -99] cells) in
  let subset :=
    {| coords := {[ "latitude" := []; "longitude" := [] ]};
       time := [TIME_START]; values := [[]] |} in
  ¬ overlaps_coverage LAT_MIN LAT_MAX [40; 41]
  ∧ ¬ overlaps_coverage LON_MIN LON_MAX [-100; -99]
  ∧ (main_io io_ok (env false)).2 = inr tt
  ∧ written (main_io io_ok (env false)).1
    = [ToNetCDF SUBSET_NETCDF "apcp" subset;
       ToCSV AREA_MEAN_CSV
         [[CText "time"; CText "apcp_area_mean"];
          [CTime TIME_START; CValue None]]]
  ∧ (main_io io_ok (env true)).2 = inl (ValueError "Encountered all NA values").
Proof.
  intros cells env subset. rewrite !main_io_ok.
  assert (select_subset
            {| coords := {[ "latitude" := [40; 41]; "longitude" := [-100; -99] ]};
               time := [TIME_START]; values := cells |}
            "latitude" "longitude" = inr subset) as Hsubset.
  { rewrite (select_subset_grid [TIME_START] [40; 41] [-100; -99] cells
               (Slice LAT_MIN LAT_MAX) (Slice LON_MIN LON_MAX)
               (0, 1)%nat (0, 0)%nat (2, 2)%nat); [reflexivity|..].
    - unfold _get_slice. simpl. decide_reals. reflexivity.
    - unfold _get_slice. simpl. decide_reals. reflexivity.
    - reflexivity.
    - unfold slice_locs, get_slice_bound, LAT_MIN, LAT_MAX. simpl.
      decide_reals. reflexivity.
    - unfold slice_locs, get_slice_bound, LON_MIN, LON_MAX. simpl.
      decide_reals. reflexivity. }
  assert (area_mean subset "latitude" = inr [(TIME_START, None)]) as Hmean.
  { unfold area_mean, coordinate. simpl.
    rewrite lookup_insert_eq. simpl. unfold weighted_mean, dot. simpl.
    by rewrite bool_decide_eq_true_2. }
  split_and!.
  - apply not_overlaps_above; unfold LAT_MAX; lra.
  - apply not_overlaps_below; unfold LON_MIN; lra.
  - erewrite (main_completed (env false)); [done| | | | | | |];
      [reflexivity|apply lookup_singleton_eq|apply resolve_names_grid
      |exact Hsubset|done|exact Hmean|reflexivity].
  - erewrite (main_completed (env false));
      [| reflexivity|apply lookup_singleton_eq|apply resolve_names_grid
       |exact Hsubset|done|exact Hmean|reflexivity].
    reflexivity.
  - eapply (main_qa_failed (env true));
      [reflexivity|apply lookup_singleton_eq|apply resolve_names_grid
      |exact Hsubset|done|exact Hmean|reflexivity].
Qed.

(** ** The tabular file *)

Lemma StronglySorted_sublist {A : Type} (R : relation A) (l k : list A) :
  l `sublist_of` k → StronglySorted R k → StronglySorted R l.
Proof.
  induction 1 as [|x l k Hsub IH|x l k Hsub IH]; intros Hk; [done|..].
  - apply StronglySorted_cons in Hk as [Hall Hk].
    apply StronglySorted_cons. split; [|by apply IH].
    rewrite Forall_forall in Hall |- *. intros y Hy.
    by apply Hall, (sublist_subseteq _ _ Hsub).
  - apply StronglySorted_cons in Hk as [_ Hk]. by apply IH.
Qed.

Lemma sublist_fst_zip {A B : Type} (l : list A) (k : list B) :
  (zip l k).*1 `sublist_of` l.
Proof.
  revert k. induction l as [|x l IH]; intros [|y k]; simpl; try done.
  - apply sublist_nil_l.
  - by apply sublist_skip.
Qed.

Lemma area_mean_time_sorted (apcp subset : DataArray)
    (lat_name lon_name : string) (series : Series) :
  select_subset apcp lat_name lon_name = inr subset →
  area_mean subset lat_name = inr series →
  StronglySorted Z.le (series.*1).
Proof.
  intros [Hinc Htime]%select_subset_time Hmean.
  unfold area_mean in Hmean.
  destruct (coordinate subset lat_name) as [?|lats]; [done|].
  injection Hmean as <-.
  eapply StronglySorted_sublist; [apply sublist_fst_zip|].
  rewrite Htime.
  eapply StronglySorted_sublist; [apply sublist_filter|].
  apply Sorted_StronglySorted; [apply _|].
  exact (proj1 (is_monotonic_increasing_Sorted Z.le (time apcp)) Hinc).
Qed.

(** C9: a run that completes writes one tabular file.  Its first line is
    the header with the two column names ["time"] and ["apcp_area_mean"];
    it is followed by one line of two fields, the timestamp and the value,
    per row of the area-mean series of the run, that is of the subset
    selected from the variable of the opened store, in the order of the
    series, which is ascending in time. *)
Theorem csv_output (io : IO) (env : Env) :
  (main_io io env).2 = inr tt →
  ∃ ds apcp lat_name lon_name subset series lines,
    opened env = inr ds
    ∧ ds !! "apcp" = Some apcp
    ∧ resolve_names apcp = inr (lat_name, lon_name)
    ∧ select_subset apcp lat_name lon_name = inr subset
    ∧ area_mean subset lat_name = inr series
    ∧ series ≠ []
    ∧ csv_written (main_io io env).1 = [(AREA_MEAN_CSV, lines)]
    ∧ lines = [CText "time"; CText "apcp_area_mean"]
                :: ((λ r, [CTime r.1; CValue r.2]) <$> series)
    ∧ (∀ i t v, series !! i = Some (t, v) →
         lines !! S i = Some [CTime t; CValue v])
    ∧ length lines = S (length series)
    ∧ Forall (λ line, length line = 2%nat) lines
    ∧ StronglySorted Z.le (series.*1).
Proof.
  destruct (main_io_outcome io env) as
    [| | | | | | | |
    |tr0 ds apcp lat_name lon_name subset series max_timestamp
       Hmkdir Hopen Hapcp Hnames Hsubset Hne Hmean Hcompute Hidx Hnetcdf Hcsv];
    cbn [fst snd]; try done.
  intros _.
  pose proof (open_trace_opened _ _ _ Hopen) as Hopened.
  exists ds, apcp, lat_name, lon_name, subset, series. eexists.
  split_and!; [done|done|done|done|done| | |reflexivity| | | |].
  - intros ->. by unfold idxmax in Hidx.
  - pose proof (open_writes_no_csv env (AORC_ZARR_URI env)) as Hw.
    rewrite Hopen in Hw. cbn [fst] in Hw.
    change (csv_written (Mkdir OUTPUT_DIR :: ?tr)) with (csv_written tr).
    by rewrite csv_written_app, Hw.
  - intros i t v Hi. simpl. by rewrite list_lookup_fmap, Hi.
  - simpl. by rewrite length_fmap.
  - constructor; [done|]. by apply Forall_fmap, Forall_true.
  - by eapply area_mean_time_sorted.
Qed.

Lemma csv_output_witness :
  let env :=
    fixed_env
      (grid_dataset [TIME_START; (TIME_START + 3600)%Z] [37.7] [-89.2]
         [[[Some 1]]; [[Some 2]]]) false in
  ∃ ds apcp lat_name lon_name subset series lines,
    opened env = inr ds
    ∧ ds !! "apcp" = Some apcp
    ∧ resolve_names apcp = inr (lat_name, lon_name)
    ∧ select_subset apcp lat_name lon_name = inr subset
    ∧ area_mean subset lat_name = inr series
    ∧ series ≠ []
    ∧ csv_written (main_io io_ok env).1 = [(AREA_MEAN_CSV, lines)]
    ∧ lines = [CText "time"; CText "apcp_area_mean"]
                :: ((λ r, [CTime r.1; CValue r.2]) <$> series)
    ∧ (∀ i t v, series !! i = Some (t, v) →
         lines !! S i = Some [CTime t; CValue v])
    ∧ length lines = S (length series)
    ∧ Forall (λ line, length line = 2%nat) lines
    ∧ StronglySorted Z.le (series.*1).
Proof.
  intros env. apply (csv_output io_ok env).
  rewrite main_io_ok.
  eapply (main_completes env).
  - reflexivity.
  - apply lookup_singleton_eq.
  - apply resolve_names_grid.
  - apply (select_subset_grid [TIME_START; (TIME_START + 3600)%Z] [37.7] [-89.2]
             [[[Some 1]]; [[Some 2]]]
             (Slice LAT_MIN LAT_MAX) (Slice LON_MIN LON_MAX)
             (0, 2)%nat (0, 1)%nat (0, 1)%nat).
    + unfold _get_slice. simpl. decide_reals. reflexivity.
    + unfold _get_slice. simpl. decide_reals. reflexivity.
    + reflexivity.
    + unfold slice_locs, get_slice_bound, LAT_MIN, LAT_MAX. simpl.
      decide_reals. reflexivity.
    + unfold slice_locs, get_slice_bound, LON_MIN, LON_MAX. simpl.
      decide_reals. reflexivity.
  - discriminate.
  - unfold area_mean, coordinate. simpl. rewrite lookup_insert_eq. reflexivity.
  - discriminate.
  - reflexivity.
Defined.

(** * Further properties of the pipeline *)

(** ** The subset's axes *)

(** X1: on a store whose time axis is ascending and whose latitude and
    longitude arrays are non-empty and each stored ascending or descending,
    the selection raises nothing, and the subset holds exactly the
    latitudes within [[LAT_MIN, LAT_MAX]], the longitudes within
    [[LON_MIN, LON_MAX]] and the time steps within
    [[TIME_START, TIME_END]], each in the order of the store. *)
Theorem subset_axes_within_bounds (apcp : DataArray)
    (lat_name lon_name : string) (lats lons : list R) :
  lat_name ≠ lon_name →
  coords apcp !! lat_name = Some lats →
  coords apcp !! lon_name = Some lons →
  lats ≠ [] → lons ≠ [] →
  is_monotonic_increasing Rle lats = true
  ∨ is_monotonic_decreasing Rle lats = true →
  is_monotonic_increasing Rle lons = true
  ∨ is_monotonic_decreasing Rle lons = true →
  is_monotonic_increasing Z.le (time apcp) = true →
  ∃ subset,
    select_subset apcp lat_name lon_name = inr subset
    ∧ coords subset !! lat_name
      = Some (filter (λ y, LAT_MIN <= y ∧ y <= LAT_MAX) lats)
    ∧ coords subset !! lon_name
      = Some (filter (λ x, LON_MIN <= x ∧ x <= LON_MAX) lons)
    ∧ time subset
      = filter (λ t, (TIME_START ≤ t)%Z ∧ (t ≤ TIME_END)%Z) (time apcp).
Proof.
  intros Hnames Hlat Hlon Hlats Hlons Hmlat Hmlon Htime.
  destruct (get_slice_total lats LAT_MIN LAT_MAX Hlats Hmlat)
    as (lat_slice & yij & Hsy & Hy).
  destruct (get_slice_total lons LON_MIN LON_MAX Hlons Hmlon)
    as (lon_slice & xij & Hsx & Hx).
  destruct (time_slice_total (time apcp) TIME_START TIME_END Htime)
    as (tij & Ht & Htf).
  exists (isel apcp lat_name lon_name tij yij xij). split_and!.
  - unfold select_subset, sel, coordinate.
    rewrite Hlat, Hlon. simpl. rewrite Hsy. simpl. rewrite Hsx. simpl.
    rewrite Ht. simpl. rewrite Hy. simpl. by rewrite Hx.
  - simpl. rewrite lookup_alter_ne, lookup_alter_eq, Hlat by done. simpl.
    f_equal. by eapply get_slice_locs.
  - simpl. rewrite lookup_alter_eq, lookup_alter_ne, Hlon by done. simpl.
    f_equal. by eapply get_slice_locs.
  - done.
Qed.

Lemma subset_axes_within_bounds_witness :
  let apcp :=
    {| coords := {[ "latitude" := [38; 37.7; 37];
                    "longitude" := [-89.4; -89.2; -89] ]};
       time := [TIME_START; (TIME_END + 3600)%Z];
       values := [] |} in
  ∃ subset,
    select_subset apcp "latitude" "longitude" = inr subset
    ∧ coords subset !! "latitude"
      = Some (filter (λ y, LAT_MIN <= y ∧ y <= LAT_MAX) [38; 37.7; 37])
    ∧ coords subset !! "longitude"
      = Some (filter (λ x, LON_MIN <= x ∧ x <= LON_MAX) [-89.4; -89.2; -89])
    ∧ time subset
      = filter (λ t, (TIME_START ≤ t)%Z ∧ (t ≤ TIME_END)%Z) (time apcp).
Proof.
  intros apcp.
  apply (subset_axes_within_bounds apcp "latitude" "longitude"
           [38; 37.7; 37] [-89.4; -89.2; -89]).
  - discriminate.
  - reflexivity.
  - reflexivity.
  - discriminate.
  - discriminate.
  - right. simpl. decide_reals. reflexivity.
  - left. simpl. decide_reals. reflexivity.
  - reflexivity.
Defined.

(** ** Why the helper swaps the bounds *)

Lemma searchsorted_right_le_left (idx : list R) (lo hi : R) :
  lo < hi →
  (searchsorted Rle idx lo Right ≤ searchsorted Rle idx hi Left)%nat.
Proof.
  intros Hlt. induction idx as [|x tl IH]; simpl; [lia|].
  case_bool_decide as Hxlo; [|lia].
  rewrite bool_decide_eq_true_2 by lra. lia.
Qed.

(** X2: on a coordinate array stored descending (and not constant) the
    helper returns the bounds swapped, and the swap is needed: the same
    bounds in their natural order select nothing from that array, without
    an error. *)
Theorem unswapped_slice_selects_nothing (coordinate : list R)
    (min_value max_value : R) :
  is_monotonic_increasing Rle coordinate = false →
  is_monotonic_decreasing Rle coordinate = true →
  min_value < max_value →
  _get_slice min_value max_value coordinate = inr (Slice max_value min_value)
  ∧ sel_labels Rle coordinate (Slice min_value max_value) = inr [].
Proof.
  intros Hninc Hdec Hlt. split.
  - unfold _get_slice.
    destruct (head coordinate) as [c0|] eqn:Hh;
      [|by apply head_None in Hh; subst].
    destruct (last coordinate) as [cl|] eqn:Hl;
      [|by apply last_None in Hl; subst].
    simpl. rewrite bool_decide_eq_false_2; [done|].
    intros Hle.
    by rewrite (decreasing_flat_increasing _ _ _ Hdec Hh Hl Hle) in Hninc.
  - unfold sel_labels, slice_locs, get_slice_bound. simpl.
    rewrite Hninc, Hdec. f_equal. unfold positional. simpl.
    apply drop_ge. rewrite length_take.
    pose proof (searchsorted_right_le_left (reverse coordinate)
                  min_value max_value Hlt).
    lia.
Qed.

Lemma unswapped_slice_selects_nothing_witness :
  _get_slice 37.60 37.85 [38; 37.7; 37] = inr (Slice 37.85 37.60)
  ∧ sel_labels Rle [38; 37.7; 37] (Slice 37.60 37.85) = inr [].
Proof.
  apply (unswapped_slice_selects_nothing [38; 37.7; 37] 37.60 37.85).
  - simpl. decide_reals. reflexivity.
  - simpl. decide_reals. reflexivity.
  - lra.
Defined.

(** ** An axis that is not sorted *)

Lemma positions_from_nil (i : nat) (idx : list R) (v : R) :
  v ∉ idx → positions_from Rle i idx v = [].
Proof.
  revert i. induction idx as [|x tl IH]; intros i Hv; simpl; [done|].
  rewrite bool_decide_eq_false_2.
  - apply IH. intros Hin. apply Hv. by right.
  - intros [Hxv Hvx]. apply Hv. assert (x = v) as -> by lra. left.
Qed.

Lemma get_slice_bound_unsorted (idx : list R) (label : R) (sd : side) :
  is_monotonic_increasing Rle idx = false →
  is_monotonic_decreasing Rle idx = false →
  (∃ msg, get_slice_bound Rle idx label sd = inl (KeyError msg))
  ∨ (label ∈ idx ∧ ∃ n, get_slice_bound Rle idx label sd = inr n).
Proof.
  intros Hninc Hndec. unfold get_slice_bound. rewrite Hninc, Hndec.
  destruct (decide (label ∈ idx)) as [Hin|Hnot].
  - destruct (positions_from Rle 0 idx label) as [|p ps]; [left; by eexists|].
    case_bool_decide; [right | left]; eauto.
  - rewrite positions_from_nil by done. left. by eexists.
Qed.

(** X3: on a coordinate array that is neither ascending nor descending,
    bounds that are not both entries of the array make the selection raise
    [KeyError]; nothing is selected silently. *)
Theorem unsorted_axis_raises (coordinate : list R) (min_value max_value : R) :
  is_monotonic_increasing Rle coordinate = false →
  is_monotonic_decreasing Rle coordinate = false →
  min_value ∉ coordinate ∨ max_value ∉ coordinate →
  ∃ msg, select_coordinate min_value max_value coordinate = inl (KeyError msg).
Proof.
  intros Hninc Hndec Hmissing.
  assert (∀ a b, a ∉ coordinate ∨ b ∉ coordinate →
            ∃ msg, sel_labels Rle coordinate (Slice a b) = inl (KeyError msg))
    as Hsel.
  { intros a b Hab. unfold sel_labels, slice_locs. simpl.
    destruct (get_slice_bound_unsorted coordinate a Left Hninc Hndec)
      as [[msg ->]|[Ha [i ->]]]; [by exists msg|].
    destruct (get_slice_bound_unsorted coordinate b Right Hninc Hndec)
      as [[msg ->]|[Hb [j ->]]]; [by exists msg|].
    by destruct Hab. }
  unfold select_coordinate, _get_slice.
  destruct (head coordinate) as [c0|] eqn:Hh;
    [|by apply head_None in Hh; subst].
  destruct (last coordinate) as [cl|] eqn:Hl;
    [|by apply last_None in Hl; subst].
  simpl. case_bool_decide; apply Hsel; tauto.
Qed.

Lemma unsorted_axis_raises_witness :
  ∃ msg, select_coordinate 37.60 37.85 [37; 38; 37.7] = inl (KeyError msg).
Proof.
  apply (unsorted_axis_raises [37; 38; 37.7] 37.60 37.85).
  - simpl. decide_reals. reflexivity.
  - simpl. decide_reals. reflexivity.
  - left. intros Hin. repeat (apply elem_of_cons in Hin as [Hin|Hin]; [lra|]).
    by apply elem_of_nil in Hin.
Defined.

(** ** The shape of the subset and of the series *)

Lemma length_positional {B : Type} (xs : list B) (ij : nat * nat) :
  length (positional xs ij) = (snd ij `min` length xs - fst ij)%nat.
Proof. unfold positional. by rewrite length_drop, length_take. Qed.

Lemma length_positional_eq {B C : Type} (xs : list B) (ys : list C)
    (ij : nat * nat) :
  length xs = length ys →
  length (positional xs ij) = length (positional ys ij).
Proof. intros Hlen. by rewrite !length_positional, Hlen. Qed.

Lemma Forall_positional {B : Type} (P : B → Prop) (xs : list B) (ij : nat * nat) :
  Forall P xs → Forall P (positional xs ij).
Proof. intros Hxs. unfold positional. by apply Forall_drop, Forall_take. Qed.

(** X5: selection keeps a labelled array consistent with its axes, so the
    area-mean series of the subset has one row per time step of the subset,
    labelled with the time steps in order. *)
Theorem subset_well_formed (apcp subset : DataArray)
    (lat_name lon_name : string) (series : Series) :
  lat_name ≠ lon_name →
  well_formed apcp lat_name lon_name →
  select_subset apcp lat_name lon_name = inr subset →
  area_mean subset lat_name = inr series →
  well_formed subset lat_name lon_name
  ∧ series.*1 = time subset
  ∧ length series = length (time subset).
Proof.
  intros Hnames (lats & lons & Hlat & Hlon & Htime & Hcells) Hsubset Hmean.
  destruct (select_subset_shape _ _ _ _ Hsubset)
    as (lats' & lons' & lat_slice & lon_slice & tij & yij & xij
        & Hlat' & Hlon' & _ & _ & _ & _ & _ & ->).
  rewrite Hlat in Hlat'. injection Hlat' as <-.
  rewrite Hlon in Hlon'. injection Hlon' as <-.
  assert (length (values (isel apcp lat_name lon_name tij yij xij))
          = length (time (isel apcp lat_name lon_name tij yij xij))) as Hlen.
  { simpl. rewrite length_fmap. by apply length_positional_eq. }
  assert (series.*1 = time (isel apcp lat_name lon_name tij yij xij)) as Hidx.
  { unfold area_mean in Hmean.
    destruct (coordinate _ lat_name) as [?|w]; [done|]. injection Hmean as <-.
    apply fst_zip. rewrite length_fmap.
    apply Nat.eq_le_incl. symmetry. exact Hlen. }
  split_and!; [|done|by rewrite <-Hidx, length_fmap].
  exists (positional lats yij), (positional lons xij). split_and!.
  - simpl. by rewrite lookup_alter_ne, lookup_alter_eq, Hlat.
  - simpl. by rewrite lookup_alter_eq, lookup_alter_ne, Hlon.
  - done.
  - simpl. apply Forall_fmap, Forall_positional.
    eapply Forall_impl; [exact Hcells|]. intros grid [Hrows Hrow]. simpl.
    split.
    + rewrite length_fmap. by apply length_positional_eq.
    + apply Forall_fmap, Forall_positional.
      eapply Forall_impl; [exact Hrow|]. intros row Hcols. simpl.
      by apply length_positional_eq.
Qed.

Lemma subset_well_formed_witness :
  let apcp :=
    {| coords := {[ "latitude" := [37.7]; "longitude" := [-89.2] ]};
       time := [TIME_START; (TIME_START + 3600)%Z];
       values := [[[Some 1]]; [[Some 2]]] |} in
  let series : Series :=
    zip (time apcp) (weighted_mean (weights_of [37.7]) <$> values apcp) in
  well_formed apcp "latitude" "longitude"
  ∧ series.*1 = time apcp
  ∧ length series = length (time apcp).
Proof.
  intros apcp series.
  apply (subset_well_formed apcp apcp "latitude" "longitude" series).
  - discriminate.
  - exists [37.7], [-89.2]. split_and!; [reflexivity..|].
    repeat constructor.
  - unfold apcp.
    rewrite (select_subset_grid [TIME_START; (TIME_START + 3600)%Z] [37.7] [-89.2]
               [[[Some 1]]; [[Some 2]]]
               (Slice LAT_MIN LAT_MAX) (Slice LON_MIN LON_MAX)
               (0, 2)%nat (0, 1)%nat (0, 1)%nat); [reflexivity|..].
    + unfold _get_slice. simpl. decide_reals. reflexivity.
    + unfold _get_slice. simpl. decide_reals. reflexivity.
    + reflexivity.
    + unfold slice_locs, get_slice_bound, LAT_MIN, LAT_MAX. simpl.
      decide_reals. reflexivity.
    + unfold slice_locs, get_slice_bound, LON_MIN, LON_MAX. simpl.
      decide_reals. reflexivity.
  - unfold area_mean, coordinate. simpl. rewrite lookup_insert_eq. reflexivity.
Defined.

(** ** A box outside the coverage *)

Lemma dot_no_weights (f : option R → R) (grid : list (list (option R))) :
  dot f grid [] = 0.
Proof. unfold dot. by destruct grid. Qed.

Lemma dot_no_columns (f : option R → R) (grid : list (list (option R)))
    (weights : list R) :
  Forall (λ row, row = []) grid → dot f grid weights = 0.
Proof.
  intros Hgrid. revert weights.
  induction Hgrid as [|row grid -> _ IH]; intros [|w weights]; try done.
  specialize (IH weights). unfold dot, sum_list in *. csimpl. lra.
Qed.

Lemma select_subset_axes (apcp subset : DataArray)
    (lat_name lon_name : string) (lats lons : list R) :
  lat_name ≠ lon_name →
  coords apcp !! lat_name = Some lats →
  coords apcp !! lon_name = Some lons →
  is_monotonic_increasing Rle lats = true
  ∨ is_monotonic_decreasing Rle lats = true →
  is_monotonic_increasing Rle lons = true
  ∨ is_monotonic_decreasing Rle lons = true →
  select_subset apcp lat_name lon_name = inr subset →
  ∃ tij yij xij,
    subset = isel apcp lat_name lon_name tij yij xij
    ∧ positional lats yij = filter (λ y, LAT_MIN <= y ∧ y <= LAT_MAX) lats
    ∧ positional lons xij = filter (λ x, LON_MIN <= x ∧ x <= LON_MAX) lons.
Proof.
  intros Hnames Hlat Hlon Hmlat Hmlon Hsubset.
  destruct (select_subset_shape _ _ _ _ Hsubset)
    as (lats' & lons' & lat_slice & lon_slice & tij & yij & xij
        & Hlat' & Hlon' & Hsy & Hsx & _ & Hy & Hx & ->).
  rewrite Hlat in Hlat'. injection Hlat' as <-.
  rewrite Hlon in Hlon'. injection Hlon' as <-.
  exists tij, yij, xij. split_and!; [done|..];
    by eapply get_slice_locs.
Qed.

Lemma filter_nil_outside (lo hi : R) (xs : list R) :
  (∀ x, x ∈ xs → ¬ (lo <= x <= hi)) →
  filter (λ x, lo <= x ∧ x <= hi) xs = [].
Proof.
  induction xs as [|x xs IH]; intros Hout; [done|].
  rewrite filter_cons_False.
  - apply IH. intros y Hy. apply Hout. by right.
  - apply Hout. left.
Qed.

Lemma outside_box_series (apcp subset : DataArray)
    (lat_name lon_name : string) (lats lons : list R) (series : Series) :
  lat_name ≠ lon_name →
  well_formed apcp lat_name lon_name →
  coords apcp !! lat_name = Some lats →
  coords apcp !! lon_name = Some lons →
  is_monotonic_increasing Rle lats = true
  ∨ is_monotonic_decreasing Rle lats = true →
  is_monotonic_increasing Rle lons = true
  ∨ is_monotonic_decreasing Rle lons = true →
  (∀ y, y ∈ lats → ¬ (LAT_MIN <= y <= LAT_MAX))
  ∨ (∀ x, x ∈ lons → ¬ (LON_MIN <= x <= LON_MAX)) →
  select_subset apcp lat_name lon_name = inr subset →
  area_mean subset lat_name = inr series →
  time subset
  = filter (λ t, (TIME_START ≤ t)%Z ∧ (t ≤ TIME_END)%Z) (time apcp)
  ∧ series.*1 = time subset
  ∧ Forall (λ r, r.2 = None) series
  ∧ nanmax series = None.
Proof.
  intros Hnames Hwf Hlat Hlon Hmlat Hmlon Hout Hsubset Hmean.
  destruct (select_subset_time _ _ _ _ Hsubset) as [_ Htime].
  destruct (select_subset_axes _ _ _ _ _ _ Hnames Hlat Hlon Hmlat Hmlon Hsubset)
    as (tij & yij & xij & -> & Hy & Hx).
  destruct Hwf as (lats' & lons' & Hlat' & Hlon' & Hlen & Hcells).
  rewrite Hlat in Hlat'. injection Hlat' as <-.
  rewrite Hlon in Hlon'. injection Hlon' as <-.
  assert (series.*1 = time (isel apcp lat_name lon_name tij yij xij)) as Hidx.
  { unfold area_mean in Hmean.
    destruct (coordinate _ lat_name) as [?|w]; [done|]. injection Hmean as <-.
    apply fst_zip. rewrite length_fmap. simpl. rewrite length_fmap.
    apply Nat.eq_le_incl. symmetry. by apply length_positional_eq. }
  assert (Forall (λ r, r.2 = None) series) as Hmissing.
  { unfold area_mean, coordinate in Hmean. simpl in Hmean.
    rewrite lookup_alter_ne, lookup_alter_eq, Hlat in Hmean by done.
    simpl in Hmean. injection Hmean as <-.
    apply Forall_forall. intros [t v] Hin. simpl.
    apply elem_of_zip_r, list_elem_of_fmap in Hin as (grid & -> & Hgrid).
    apply list_elem_of_fmap in Hgrid as (grid0 & -> & Hgrid0).
    unfold weighted_mean. rewrite bool_decide_eq_true_2; [done|].
    destruct Hout as [Hout|Hout].
    - rewrite Hy, (filter_nil_outside _ _ _ Hout). apply dot_no_weights.
    - apply dot_no_columns, Forall_fmap, Forall_positional.
      assert (grid0 ∈ values apcp) as Hin0.
      { unfold positional in Hgrid0.
        eapply elem_of_sublist; [|apply sublist_take].
        eapply elem_of_sublist; [exact Hgrid0|apply sublist_drop]. }
      rewrite Forall_forall in Hcells. destruct (Hcells _ Hin0) as [_ Hrows].
      eapply Forall_impl; [exact Hrows|]. intros row Hcols. simpl.
      apply length_zero_iff_nil.
      rewrite (length_positional_eq row lons xij Hcols), Hx,
        (filter_nil_outside _ _ _ Hout). done. }
  split_and!; [done..|].
  clear -Hmissing. induction Hmissing as [|[t v] s Hv _ IH]; [done|].
  simpl in *. by rewrite Hv, IH.
Qed.

(** X6: on a consistent store with an ascending time axis and with
    latitude and longitude arrays that are not empty and each stored
    ascending or descending, a bounding box that holds no latitude of the
    store, or no longitude, raises nothing in the selection: the subset
    keeps the time steps of the requested interval, and every value of its
    area-mean series is missing, so the maximum is missing too.  The
    empty-subset guard, which counts time steps, does not see it. *)
Theorem box_outside_coverage_gives_missing_series (apcp : DataArray)
    (lat_name lon_name : string) (lats lons : list R) :
  lat_name ≠ lon_name →
  well_formed apcp lat_name lon_name →
  coords apcp !! lat_name = Some lats →
  coords apcp !! lon_name = Some lons →
  lats ≠ [] → lons ≠ [] →
  is_monotonic_increasing Rle lats = true
  ∨ is_monotonic_decreasing Rle lats = true →
  is_monotonic_increasing Rle lons = true
  ∨ is_monotonic_decreasing Rle lons = true →
  is_monotonic_increasing Z.le (time apcp) = true →
  (∀ y, y ∈ lats → ¬ (LAT_MIN <= y <= LAT_MAX))
  ∨ (∀ x, x ∈ lons → ¬ (LON_MIN <= x <= LON_MAX)) →
  ∃ subset series,
    select_subset apcp lat_name lon_name = inr subset
    ∧ area_mean subset lat_name = inr series
    ∧ time subset
      = filter (λ t, (TIME_START ≤ t)%Z ∧ (t ≤ TIME_END)%Z) (time apcp)
    ∧ series.*1 = time subset
    ∧ Forall (λ r, r.2 = None) series
    ∧ nanmax series = None.
Proof.
  intros Hnames Hwf Hlat Hlon Hlats Hlons Hmlat Hmlon Htime Hout.
  destruct (select_subset_succeeds apcp lat_name lon_name lats lons)
    as [subset Hsubset]; [done..|].
  destruct (select_subset_keeps_coordinate _ _ _ _ Hsubset) as [w Hw].
  assert (∃ series, area_mean subset lat_name = inr series) as [series Hmean].
  { unfold area_mean, coordinate. rewrite Hw. by eexists. }
  exists subset, series. split; [done|]. split; [done|].
  by eapply outside_box_series.
Qed.

Lemma box_outside_coverage_gives_missing_series_witness :
  let apcp :=
    {| coords := {[ "latitude" := [40; 41]; "longitude" := [-100; -99] ]};
       time := [TIME_START];
       values := [[[Some 1; Some 2]; [Some 3; Some 4]]] |} in
  ∃ subset series,
    select_subset apcp "latitude" "longitude" = inr subset
    ∧ area_mean subset "latitude" = inr series
    ∧ time subset
      = filter (λ t, (TIME_START ≤ t)%Z ∧ (t ≤ TIME_END)%Z) (time apcp)
    ∧ series.*1 = time subset
    ∧ Forall (λ r, r.2 = None) series
    ∧ nanmax series = None.
Proof.
  intros apcp.
  apply (box_outside_coverage_gives_missing_series apcp
           "latitude" "longitude" [40; 41] [-100; -99]).
  - discriminate.
  - exists [40; 41], [-100; -99]. split_and!; [reflexivity..|].
    repeat constructor.
  - reflexivity.
  - reflexivity.
  - discriminate.
  - discriminate.
  - left. simpl. decide_reals. reflexivity.
  - left. simpl. decide_reals. reflexivity.
  - reflexivity.
  - left. intros y Hy. unfold LAT_MIN, LAT_MAX.
    repeat (apply elem_of_cons in Hy as [->|Hy]; [lra|]).
    by apply elem_of_nil in Hy.
Defined.

(** ** What a run leaves behind *)

Lemma written_completed_events (subset : DataArray) (series : Series)
    (max_timestamp : option Z) :
  written (completed_events subset series max_timestamp)
  = [ToNetCDF SUBSET_NETCDF "apcp" subset;
     ToCSV AREA_MEAN_CSV
       (to_csv {| index_name := "time"; column := "apcp_area_mean";
                  rows := series |})].
Proof. reflexivity. Qed.

(** X7: a run whose [mkdir] returns starts by creating the output
    directory, and one whose [mkdir] raises does nothing else.  The writes
    come in order: a run that raises has written no file, unless the error
    is the one [to_csv] raised after [to_netcdf] returned, and then it has
    written the gridded file alone; a run that completes has written
    exactly two files, the gridded file and then the tabular file, at
    their fixed paths. *)
Theorem run_writes_in_order (io : IO) (env : Env) :
  head (main_io io env).1
  = match io_mkdir io with
    | inl _ => None
    | inr _ => Some (Mkdir OUTPUT_DIR)
    end
  ∧ match (main_io io env).2 with
    | inl e =>
        written (main_io io env).1 = []
        ∨ (io_to_netcdf io = inr tt
           ∧ io_to_csv io = inl e
           ∧ ∃ subset,
               written (main_io io env).1
               = [ToNetCDF SUBSET_NETCDF "apcp" subset])
    | inr _ =>
        ∃ subset lines,
          written (main_io io env).1
          = [ToNetCDF SUBSET_NETCDF "apcp" subset; ToCSV AREA_MEAN_CSV lines]
    end.
Proof.
  destruct (main_io_outcome io env) as
    [e Hmkdir|tr0 ? Hmkdir Hopen|tr0 ??? Hmkdir Hopen|tr0 ????? Hmkdir Hopen
    |tr0 ????? Hmkdir Hopen|tr0 ??????? Hmkdir Hopen|tr0 ??????? Hmkdir Hopen
    |tr0 ???????? Hmkdir Hopen|tr0 ?????? ts e Hmkdir Hopen
    |tr0 ds apcp lat_name lon_name subset series ts Hmkdir Hopen];
    rewrite Hmkdir; cbn [fst snd]; (split; [done|]);
    try (pose proof (open_trace_writes_nothing _ _ _ Hopen) as Hw;
         first [rewrite (written_run _ _ Hw)
               |change (written (Mkdir OUTPUT_DIR :: tr0)) with (written tr0);
                rewrite Hw]).
  - by left.
  - by left.
  - by left.
  - by left.
  - by left.
  - by left.
  - by left.
  - by left.
  - right. split_and!; [done..|]. by eexists.
  - by eexists _, _.
Qed.

(** The tabular write fails on a full disk: the run raises that error and
    leaves the gridded file behind. *)
Example csv_failure_leaves_gridded_file :
  let io :=
    {| io_mkdir := inr tt; io_compute := inr tt;
       io_to_netcdf := inr tt;
       io_to_csv := inl (OtherException "No space left on device") |} in
  let apcp :=
    {| coords := {[ "latitude" := [37.7]; "longitude" := [-89.2] ]};
       time := [TIME_START]; values := [[[Some 1]]] |} in
  let env := fixed_env {[ "apcp" := apcp ]} false in
  (main_io io env).2 = inl (OtherException "No space left on device")
  ∧ written (main_io io env).1 = [ToNetCDF SUBSET_NETCDF "apcp" apcp].
Proof.
  intros io apcp env.
  eapply (main_io_csv_fails io env).
  - reflexivity.
  - reflexivity.
  - apply lookup_singleton_eq.
  - apply resolve_names_grid.
  - apply (select_subset_grid [TIME_START] [37.7] [-89.2] [[[Some 1]]]
             (Slice LAT_MIN LAT_MAX) (Slice LON_MIN LON_MAX)
             (0, 1)%nat (0, 1)%nat (0, 1)%nat).
    + unfold _get_slice. simpl. decide_reals. reflexivity.
    + unfold _get_slice. simpl. decide_reals. reflexivity.
    + reflexivity.
    + unfold slice_locs, get_slice_bound, LAT_MIN, LAT_MAX. simpl.
      decide_reals. reflexivity.
    + unfold slice_locs, get_slice_bound, LON_MIN, LON_MAX. simpl.
      decide_reals. reflexivity.
  - discriminate.
  - unfold area_mean, coordinate. simpl. rewrite lookup_insert_eq. reflexivity.
  - discriminate.
  - reflexivity.
  - reflexivity.
  - reflexivity.
  - reflexivity.
Qed.

(** X8: in a run that completes, the gridded file holds the subset itself
    (not the reduced series) under the name ['apcp'], with at least one time
    step; the tabular file holds the area-mean series of that same subset;
    and the two QA figures logged before the writes are the missing-hours
    count and the maximum of that same series. *)
Theorem completed_run_is_consistent (env : Env) :
  (main env).2 = inr tt →
  ∃ ds apcp lat_name lon_name subset series max_timestamp,
    opened env = inr ds
    ∧ ds !! "apcp" = Some apcp
    ∧ resolve_names apcp = inr (lat_name, lon_name)
    ∧ select_subset apcp lat_name lon_name = inr subset
    ∧ time subset ≠ []
    ∧ area_mean subset lat_name = inr series
    ∧ idxmax env series = inr max_timestamp
    ∧ written (main env).1
      = [ToNetCDF SUBSET_NETCDF "apcp" subset;
         ToCSV AREA_MEAN_CSV
           (to_csv {| index_name := "time"; column := "apcp_area_mean";
                      rows := series |})]
    ∧ LogInfo "Missing hours in requested period: %d"
        [AInt (missing_hours series)] ∈ (main env).1
    ∧ LogInfo "Max hourly area-mean apcp: %.4f at %s"
        [AFloat (nanmax series); ATimestamp max_timestamp] ∈ (main env).1
    ∧ last (main env).1 = Some (LogInfo "Done" []).
Proof.
  destruct (main_outcome env) as
    [|??????|????????|????????|??????????
    |tr0 ds apcp lat_name lon_name subset series max_timestamp
       Hopen Hapcp Hnames Hsubset Hne Hmean Hidx]; cbn [fst snd]; try done.
  intros _.
  exists ds, apcp, lat_name, lon_name, subset, series, max_timestamp.
  assert (opened env = inr ds) as Hopened.
  { pose proof (open_result env (AORC_ZARR_URI env)) as Hr.
    rewrite Hopen in Hr. cbn [snd] in Hr.
    destruct (opened env) as [|ds']; [done|].
    case_bool_decide; [done|]. by injection Hr as ->. }
  split_and!; try done.
  - pose proof (open_writes_nothing env (AORC_ZARR_URI env)) as Hw.
    rewrite Hopen in Hw. cbn [fst] in Hw.
    change (written (Mkdir OUTPUT_DIR :: ?tr)) with (written tr).
    by rewrite written_app, Hw.
  - right. apply elem_of_app. right. unfold completed_events.
    do 2 right. left.
  - right. apply elem_of_app. right. unfold completed_events.
    do 3 right. left.
  - rewrite last_cons, last_app. by unfold completed_events.
Qed.

Lemma completed_run_is_consistent_witness :
  let env :=
    fixed_env
      (grid_dataset [TIME_START; (TIME_START + 3600)%Z] [37.7] [-89.2]
         [[[Some 1]]; [[Some 2]]]) false in
  ∃ ds apcp lat_name lon_name subset series max_timestamp,
    opened env = inr ds
    ∧ ds !! "apcp" = Some apcp
    ∧ resolve_names apcp = inr (lat_name, lon_name)
    ∧ select_subset apcp lat_name lon_name = inr subset
    ∧ time subset ≠ []
    ∧ area_mean subset lat_name = inr series
    ∧ idxmax env series = inr max_timestamp
    ∧ written (main env).1
      = [ToNetCDF SUBSET_NETCDF "apcp" subset;
         ToCSV AREA_MEAN_CSV
           (to_csv {| index_name := "time"; column := "apcp_area_mean";
                      rows := series |})]
    ∧ LogInfo "Missing hours in requested period: %d"
        [AInt (missing_hours series)] ∈ (main env).1
    ∧ LogInfo "Max hourly area-mean apcp: %.4f at %s"
        [AFloat (nanmax series); ATimestamp max_timestamp] ∈ (main env).1
    ∧ last (main env).1 = Some (LogInfo "Done" []).
Proof.
  intros env. apply (completed_run_is_consistent env).
  eapply (main_completes env).
  - reflexivity.
  - apply lookup_singleton_eq.
  - apply resolve_names_grid.
  - apply (select_subset_grid [TIME_START; (TIME_START + 3600)%Z] [37.7] [-89.2]
             [[[Some 1]]; [[Some 2]]]
             (Slice LAT_MIN LAT_MAX) (Slice LON_MIN LON_MAX)
             (0, 2)%nat (0, 1)%nat (0, 1)%nat).
    + unfold _get_slice. simpl. decide_reals. reflexivity.
    + unfold _get_slice. simpl. decide_reals. reflexivity.
    + reflexivity.
    + unfold slice_locs, get_slice_bound, LAT_MIN, LAT_MAX. simpl.
      decide_reals. reflexivity.
    + unfold slice_locs, get_slice_bound, LON_MIN, LON_MAX. simpl.
      decide_reals. reflexivity.
  - discriminate.
  - unfold area_mean, coordinate. simpl. rewrite lookup_insert_eq. reflexivity.
  - discriminate.
  - reflexivity.
Defined.

(** ** Accounting for the expected hours *)

Lemma length_expected_index :
  Z.of_nat (length (date_range TIME_START TIME_END)) = 96432%Z.
Proof. rewrite length_date_range. reflexivity. Qed.

Lemma difference_accounting (this other : list Z) :
  NoDup this →
  (length (difference this other)
   + size (list_to_set this ∩ list_to_set other : gset Z))%nat
  = length this.
Proof.
  intros Hnodup. rewrite length_difference.
  rewrite <-(size_list_to_set (C := gset Z) this) by done.
  rewrite <-size_union.
  2:{ apply elem_of_disjoint. intros x.
      rewrite elem_of_difference, elem_of_intersection. tauto. }
  f_equal. apply set_eq. intros x.
  rewrite elem_of_union, elem_of_difference, elem_of_intersection.
  destruct (decide (x ∈ (list_to_set other : gset Z))); tauto.
Qed.

Lemma intersection_size_0 (this other : list Z) :
  (∀ t, t ∈ other → t ∉ this) →
  size (list_to_set this ∩ list_to_set other : gset Z) = 0%nat.
Proof.
  intros Hout. apply size_empty_iff, set_equiv. intros t.
  rewrite elem_of_intersection, !elem_of_list_to_set.
  split; [|by intros ?%not_elem_of_empty].
  intros [Hthis Hother]. exfalso. by apply (Hout t).
Qed.

(** X9: the interval of the run has 96432 expected hours, and each of them
    is counted once, as missing or as present in the series; a timestamp of
    the series that is off the hour or outside the interval stands for no
    expected hour, so a series with only such timestamps misses all
    96432. *)
Theorem missing_hours_accounting (series : Series) :
  let expected : gset Z := list_to_set (date_range TIME_START TIME_END) in
  let actual : gset Z := list_to_set (series.*1) in
  (Z.of_nat (missing_hours series) + Z.of_nat (size (expected ∩ actual))
   = 96432)%Z
  ∧ ((∀ t, t ∈ series.*1 →
        (t `mod` 3600 ≠ 0)%Z ∨ ¬ (TIME_START ≤ t ≤ TIME_END)%Z) →
     Z.of_nat (missing_hours series) = 96432%Z).
Proof.
  intros expected actual.
  pose proof (difference_accounting (date_range TIME_START TIME_END)
                (series.*1) (NoDup_date_range _ _)) as Hacc.
  pose proof length_expected_index as Hlen.
  fold expected actual in Hacc. unfold missing_hours.
  split; [lia|].
  intros Hoff.
  assert (size (expected ∩ actual) = 0%nat) as Hnone; [|lia].
  apply intersection_size_0. intros t Hact Hexp.
  apply elem_of_expected_index in Hexp. apply Hoff in Hact. tauto.
Qed.

(** ** A coordinate array of size zero *)

Lemma main_subset_failed (env : Env) (ds : Dataset) (apcp : DataArray)
    (lat_name lon_name : string) (e : exn) :
  opened env = inr ds → ds !! "apcp" = Some apcp →
  resolve_names apcp = inr (lat_name, lon_name) →
  select_subset apcp lat_name lon_name = inl e →
  (main env).2 = inl e.
Proof.
  intros Hopened Hapcp Hnames Hsubset.
  destruct (opened_open env ds apcp Hopened Hapcp) as [tr Hopen].
  destruct (main_outcome env); same_stage; done.
Qed.

Lemma resolve_names_present (apcp : DataArray) (lat_name lon_name : string) :
  resolve_names apcp = inr (lat_name, lon_name) →
  is_Some (coords apcp !! lat_name) ∧ is_Some (coords apcp !! lon_name).
Proof.
  unfold resolve_names.
  destruct (bool_decide _ || bool_decide _) eqn:Hguard; [done|].
  intros [= <- <-].
  apply orb_false_iff in Hguard as [Hlat%bool_decide_eq_false Hlon%bool_decide_eq_false].
  split; by apply not_eq_None_Some.
Qed.

(** X10: when the latitude or the longitude array of the store has no
    entry, reading its first entry in the helper raises [IndexError]; the
    pipeline stops there, before the selection, and writes no file. *)
Theorem empty_coordinate_is_index_error (env : Env) (ds : Dataset)
    (apcp : DataArray) (lat_name lon_name : string) :
  opened env = inr ds → ds !! "apcp" = Some apcp →
  resolve_names apcp = inr (lat_name, lon_name) →
  coords apcp !! lat_name = Some [] ∨ coords apcp !! lon_name = Some [] →
  ∃ msg, (main env).2 = inl (IndexError msg) ∧ written (main env).1 = [].
Proof.
  intros Hopened Hapcp Hnames Hempty.
  destruct (resolve_names_present _ _ _ Hnames) as [[lats Hlat] [lons Hlon]].
  assert (∃ msg, select_subset apcp lat_name lon_name = inl (IndexError msg))
    as [msg Hsubset].
  { unfold select_subset, coordinate. rewrite Hlat, Hlon. simpl.
    destruct lats as [|y lats]; [by eexists|].
    destruct Hempty as [|Hempty]; [congruence|].
    rewrite Hlon in Hempty. injection Hempty as ->.
    destruct (_get_slice LAT_MIN LAT_MAX (y :: lats)) as [?|s] eqn:Hs.
    - unfold _get_slice in Hs. simpl in Hs.
      by destruct (last (y :: lats)) eqn:Hl;
        [|apply last_None in Hl].
    - simpl. by eexists. }
  exists msg.
  assert ((main env).2 = inl (IndexError msg)) as Hr
    by by eapply main_subset_failed.
  split; [done|]. by eapply main_error_writes_nothing.
Qed.

Lemma empty_coordinate_is_index_error_witness :
  let env := fixed_env (grid_dataset [TIME_START] [] [-89.2] []) false in
  ∃ msg, (main env).2 = inl (IndexError msg) ∧ written (main env).1 = [].
Proof.
  intros env.
  apply (empty_coordinate_is_index_error env
           (grid_dataset [TIME_START] [] [-89.2] [])
           {| coords := {[ "latitude" := []; "longitude" := [-89.2] ]};
              time := [TIME_START]; values := [] |}
           "latitude" "longitude").
  - reflexivity.
  - apply lookup_singleton_eq.
  - apply resolve_names_grid.
  - left. reflexivity.
Defined.

(** ** The fallback and the rest of the run *)

Lemma idxmax_flag (env env' : Env) (s : Series) :
  idxmax_all_na_raises env = idxmax_all_na_raises env' →
  idxmax env s = idxmax env' s.
Proof. intros Hflag. unfold idxmax. by rewrite Hflag. Qed.

(** X11: what a run returns and which files it writes depend on the store
    only through the dataset the connector ends with.  A run whose
    consolidated open fails and whose second open succeeds therefore
    returns and writes exactly what a run whose consolidated open succeeds
    with the same dataset does; the location only shows in the log. *)
Theorem fallback_is_transparent (env env' : Env) :
  opened env = opened env' →
  idxmax_all_na_raises env = idxmax_all_na_raises env' →
  (main env).2 = (main env').2
  ∧ written (main env).1 = written (main env').1.
Proof.
  intros Hopened Hflag.
  pose proof (open_result env (AORC_ZARR_URI env)) as Hr.
  pose proof (open_result env' (AORC_ZARR_URI env')) as Hr'.
  rewrite <-Hopened, <-Hr in Hr'. clear Hr.
  pose proof (open_writes_nothing env (AORC_ZARR_URI env)) as Hw.
  pose proof (open_writes_nothing env' (AORC_ZARR_URI env')) as Hw'.
  destruct (main_outcome env) as
    [tr0 ? Hopen|tr0 ??? Hopen|tr0 ????? Hopen|tr0 ????? Hopen
    |tr0 ??????? Hopen ????? Hidx|tr0 ??????? Hopen ????? Hidx];
    rewrite Hopen in Hr', Hw; cbn [fst snd] in Hr', Hw;
    try rewrite (idxmax_flag env env') in Hidx by done;
    (destruct (main_outcome env') as
       [tr1 ? Hopen'|tr1 ??? Hopen'|tr1 ????? Hopen'|tr1 ????? Hopen'
       |tr1 ??????? Hopen'|tr1 ??????? Hopen'];
     rewrite Hopen' in Hr', Hw'; cbn [fst snd] in Hr', Hw';
     simplify_eq; same_stage; try done;
     cbn [fst snd];
     change (written (Mkdir OUTPUT_DIR :: ?tr)) with (written tr);
     rewrite ?written_app, ?Hw, ?Hw'; done).
Qed.

Lemma fallback_is_transparent_witness :
  let ds := grid_dataset [TIME_START] [37.7] [-89.2] [[[Some 1]]] in
  let env :=
    {| AORC_ZARR_URI := "s3://noaa-nws-aorc-v1-1-1km";
       store := λ consolidated : bool,
         if consolidated then inl (OtherException "no .zmetadata")
         else inr ds;
       idxmax_all_na_raises := false |} in
  let env' := fixed_env ds false in
  (main env).2 = (main env').2
  ∧ written (main env).1 = written (main env').1.
Proof.
  intros ds env env'. apply (fallback_is_transparent env env');
    reflexivity.
Defined.

(** ** QA on a series without a value *)

Lemma nanmax_all_missing (s : Series) :
  Forall (λ r, r.2 = None) s → nanmax s = None.
Proof.
  induction 1 as [|[t v] s Hv _ IH]; [done|].
  simpl in *. by rewrite Hv, IH.
Qed.

Lemma nanargmax_all_missing (s : Series) :
  Forall (λ r, r.2 = None) s → nanargmax s = None.
Proof.
  induction 1 as [|[t v] s Hv _ IH]; [done|].
  simpl in *. by rewrite Hv.
Qed.

(** X12: when every value of the area-mean series is missing, the maximum
    is missing and there is no row to report.  With a pandas that raises on
    such a series the run stops in QA with its [ValueError] and writes no
    file; with one that returns NaN the run completes, logs a missing
    maximum without a timestamp, and writes both files. *)
Theorem all_missing_series_in_qa (env : Env) (ds : Dataset)
    (apcp subset : DataArray) (lat_name lon_name : string) (series : Series) :
  opened env = inr ds → ds !! "apcp" = Some apcp →
  resolve_names apcp = inr (lat_name, lon_name) →
  select_subset apcp lat_name lon_name = inr subset →
  time subset ≠ [] →
  area_mean subset lat_name = inr series →
  series ≠ [] →
  Forall (λ r, r.2 = None) series →
  nanmax series = None
  ∧ if idxmax_all_na_raises env
    then (main env).2 = inl (ValueError "Encountered all NA values")
         ∧ written (main env).1 = []
    else (main env).2 = inr tt
         ∧ LogInfo "Max hourly area-mean apcp: %.4f at %s"
             [AFloat None; ATimestamp None] ∈ (main env).1
         ∧ length (written (main env).1) = 2%nat.
Proof.
  intros Hopened Hapcp Hnames Hsubset Hne Hmean Hrows Hmissing.
  pose proof (nanmax_all_missing series Hmissing) as Hmax.
  pose proof (nanargmax_all_missing series Hmissing) as Harg.
  split; [done|].
  destruct (idxmax_all_na_raises env) eqn:Hflag.
  - assert (idxmax env series = inl (ValueError "Encountered all NA values"))
      as Hidx.
    { unfold idxmax. rewrite Harg, Hflag. by destruct series. }
    assert ((main env).2 = inl (ValueError "Encountered all NA values")) as Hr
      by by eapply main_qa_failed.
    split; [done|]. by eapply main_error_writes_nothing.
  - assert (idxmax env series = inr None) as Hidx.
    { unfold idxmax. rewrite Harg, Hflag. by destruct series. }
    rewrite (main_completed env ds apcp subset lat_name lon_name series None)
      by done.
    cbn [fst snd]. split_and!; [done| |].
    + right. apply elem_of_app. right. unfold completed_events.
      rewrite Hmax. do 3 right. left.
    + pose proof (open_writes_nothing env (AORC_ZARR_URI env)) as Hw.
      change (written (Mkdir OUTPUT_DIR :: ?tr)) with (written tr).
      by rewrite written_app, Hw.
Qed.

Lemma all_missing_series_in_qa_witness :
  let env :=
    fixed_env
      (grid_dataset [TIME_START] [40; 41] [-100; -99]
         [[[Some 1; Some 2]; [Some 3; Some 4]]]) true in
  let series : Series := [(TIME_START, None)] in
  nanmax series = None
  ∧ (main env).2 = inl (ValueError "Encountered all NA values")
  ∧ written (main env).1 = [].
Proof.
  intros env series.
  apply (all_missing_series_in_qa env
           (grid_dataset [TIME_START] [40; 41] [-100; -99]
              [[[Some 1; Some 2]; [Some 3; Some 4]]])
           {| coords := {[ "latitude" := [40; 41]; "longitude" := [-100; -99] ]};
              time := [TIME_START];
              values := [[[Some 1; Some 2]; [Some 3; Some 4]]] |}
           {| coords := {[ "latitude" := []; "longitude" := [] ]};
              time := [TIME_START]; values := [[]] |}
           "latitude" "longitude" series).
  - reflexivity.
  - apply lookup_singleton_eq.
  - apply resolve_names_grid.
  - rewrite (select_subset_grid [TIME_START] [40; 41] [-100; -99]
               [[[Some 1; Some 2]; [Some 3; Some 4]]]
               (Slice LAT_MIN LAT_MAX) (Slice LON_MIN LON_MAX)
               (0, 1)%nat (0, 0)%nat (2, 2)%nat); [reflexivity|..].
    + unfold _get_slice. simpl. decide_reals. reflexivity.
    + unfold _get_slice. simpl. decide_reals. reflexivity.
    + reflexivity.
    + unfold slice_locs, get_slice_bound, LAT_MIN, LAT_MAX. simpl.
      decide_reals. reflexivity.
    + unfold slice_locs, get_slice_bound, LON_MIN, LON_MAX. simpl.
      decide_reals. reflexivity.
  - discriminate.
  - unfold area_mean, coordinate. simpl.
    rewrite lookup_insert_eq. simpl. unfold weighted_mean, dot. simpl.
    by rewrite bool_decide_eq_true_2.
  - discriminate.
  - by repeat constructor.
Defined.

(** ** The errors a run can raise *)

(** X14: an error raised by a run is the error of one stage, passed on
    unchanged, and the stages before it returned: what [mkdir] raised; the
    failure of the second open after the consolidated one failed; the
    missing-variable [KeyError]; the coordinate [KeyError] of name
    resolution; what the helper or the selection raised; the empty-subset
    [ValueError] when the subset has no time step; what [compute] raised;
    what [idxmax] raised on the series; what [to_netcdf] raised; or what
    [to_csv] raised. *)
Theorem error_taxonomy (io : IO) (env : Env) (e : exn) :
  (main_io io env).2 = inl e →
  io_mkdir io = inl e
  ∨ io_mkdir io = inr tt
    ∧ (opened env = inl e
       ∨ (∃ ds, opened env = inr ds ∧ ds !! "apcp" = None
                ∧ e = KeyError "Variable 'apcp' not found in dataset.")
       ∨ (∃ ds apcp,
            opened env = inr ds ∧ ds !! "apcp" = Some apcp
            ∧ (resolve_names apcp = inl e
               ∨ ∃ lat_name lon_name,
                   resolve_names apcp = inr (lat_name, lon_name)
                   ∧ (select_subset apcp lat_name lon_name = inl e
                      ∨ ∃ subset,
                          select_subset apcp lat_name lon_name = inr subset
                          ∧ ((time subset = []
                              ∧ e = ValueError
                                      "No time steps found in requested subset.")
                             ∨ ∃ series,
                                 time subset ≠ []
                                 ∧ area_mean subset lat_name = inr series
                                 ∧ (io_compute io = inl e
                                    ∨ io_compute io = inr tt
                                      ∧ (idxmax env series = inl e
                                         ∨ (∃ max_timestamp,
                                              idxmax env series
                                              = inr max_timestamp)
                                           ∧ (io_to_netcdf io = inl e
                                              ∨ io_to_netcdf io = inr tt
                                                ∧ io_to_csv io = inl e)))))))).
Proof.
  pose proof (open_result env (AORC_ZARR_URI env)) as Hr.
  destruct (main_io_outcome io env) as
    [e' Hmkdir
    |tr0 e' Hmkdir Hopen
    |tr0 ds apcp e' Hmkdir Hopen Hapcp Hnames
    |tr0 ds apcp lat_name lon_name e' Hmkdir Hopen Hapcp Hnames Hsubset
    |tr0 ds apcp lat_name lon_name subset Hmkdir Hopen Hapcp Hnames Hsubset
       Hempty
    |tr0 ds apcp lat_name lon_name subset series e'
       Hmkdir Hopen Hapcp Hnames Hsubset Hne Hmean Hcompute
    |tr0 ds apcp lat_name lon_name subset series e'
       Hmkdir Hopen Hapcp Hnames Hsubset Hne Hmean Hcompute Hidx
    |tr0 ds apcp lat_name lon_name subset series ts e'
       Hmkdir Hopen Hapcp Hnames Hsubset Hne Hmean Hcompute Hidx Hnetcdf
    |tr0 ds apcp lat_name lon_name subset series ts e'
       Hmkdir Hopen Hapcp Hnames Hsubset Hne Hmean Hcompute Hidx Hnetcdf Hcsv
    |tr0 ????????????????];
    cbn [fst snd]; intros He; try done; injection He as <-;
    [by left|right; split; [done|]..].
  - rewrite Hopen in Hr. cbn [snd] in Hr.
    destruct (opened env) as [e0|ds0] eqn:Hopened.
    + left. by rewrite Hr.
    + right. left. exists ds0. case_bool_decide; [|done].
      by injection Hr as ->.
  - apply open_trace_opened in Hopen. right. right. exists ds, apcp. eauto.
  - apply open_trace_opened in Hopen. right. right. exists ds, apcp.
    split_and!; [done..|]. right. exists lat_name, lon_name. eauto.
  - apply open_trace_opened in Hopen. right. right. exists ds, apcp.
    split_and!; [done..|]. right. exists lat_name, lon_name. split; [done|].
    right. exists subset. eauto.
  - apply open_trace_opened in Hopen. right. right. exists ds, apcp.
    split_and!; [done..|]. right. exists lat_name, lon_name. split; [done|].
    right. exists subset. split; [done|]. right. exists series. eauto.
  - apply open_trace_opened in Hopen. right. right. exists ds, apcp.
    split_and!; [done..|]. right. exists lat_name, lon_name. split; [done|].
    right. exists subset. split; [done|]. right. exists series.
    split_and!; [done..|]. right. eauto.
  - apply open_trace_opened in Hopen. right. right. exists ds, apcp.
    split_and!; [done..|]. right. exists lat_name, lon_name. split; [done|].
    right. exists subset. split; [done|]. right. exists series.
    split_and!; [done..|]. right. split; [done|]. right. eauto.
  - apply open_trace_opened in Hopen. right. right. exists ds, apcp.
    split_and!; [done..|]. right. exists lat_name, lon_name. split; [done|].
    right. exists subset. split; [done|]. right. exists series.
    split_and!; [done..|]. right. split; [done|]. right. eauto 6.
Qed.

Lemma error_taxonomy_witness :
  let io :=
    {| io_mkdir := inr tt; io_compute := inr tt;
       io_to_netcdf := inr tt;
       io_to_csv := inl (OtherException "No space left on device") |} in
  let env :=
    fixed_env (grid_dataset [TIME_START] [37.7] [-89.2] [[[Some 1]]]) false in
  let e := OtherException "No space left on device" in
  io_mkdir io = inl e
  ∨ io_mkdir io = inr tt
    ∧ (opened env = inl e
       ∨ (∃ ds, opened env = inr ds ∧ ds !! "apcp" = None
                ∧ e = KeyError "Variable 'apcp' not found in dataset.")
       ∨ (∃ ds apcp,
            opened env = inr ds ∧ ds !! "apcp" = Some apcp
            ∧ (resolve_names apcp = inl e
               ∨ ∃ lat_name lon_name,
                   resolve_names apcp = inr (lat_name, lon_name)
                   ∧ (select_subset apcp lat_name lon_name = inl e
                      ∨ ∃ subset,
                          select_subset apcp lat_name lon_name = inr subset
                          ∧ ((time subset = []
                              ∧ e = ValueError
                                      "No time steps found in requested subset.")
                             ∨ ∃ series,
                                 time subset ≠ []
                                 ∧ area_mean subset lat_name = inr series
                                 ∧ (io_compute io = inl e
                                    ∨ io_compute io = inr tt
                                      ∧ (idxmax env series = inl e
                                         ∨ (∃ max_timestamp,
                                              idxmax env series
                                              = inr max_timestamp)
                                           ∧ (io_to_netcdf io = inl e
                                              ∨ io_to_netcdf io = inr tt
                                                ∧ io_to_csv io = inl e)))))))).
Proof.
  intros io env e. apply (error_taxonomy io env e).
  eapply (main_io_csv_fails io env).
  - reflexivity.
  - reflexivity.
  - apply lookup_singleton_eq.
  - apply resolve_names_grid.
  - apply (select_subset_grid [TIME_START] [37.7] [-89.2] [[[Some 1]]]
             (Slice LAT_MIN LAT_MAX) (Slice LON_MIN LON_MAX)
             (0, 1)%nat (0, 1)%nat (0, 1)%nat).
    + unfold _get_slice. simpl. decide_reals. reflexivity.
    + unfold _get_slice. simpl. decide_reals. reflexivity.
    + reflexivity.
    + unfold slice_locs, get_slice_bound, LAT_MIN, LAT_MAX. simpl.
      decide_reals. reflexivity.
    + unfold slice_locs, get_slice_bound, LON_MIN, LON_MAX. simpl.
      decide_reals. reflexivity.
  - discriminate.
  - unfold area_mean, coordinate. simpl. rewrite lookup_insert_eq. reflexivity.
  - discriminate.
  - reflexivity.
  - reflexivity.
  - reflexivity.
  - reflexivity.
Defined.

